(** * Clients and orders over SQLite: the data-access layer of [app.py]

    The development embeds the schema created by [init_db] and the eleven
    data-access functions of [app.py].  Every function of the program opens a
    connection with [get_conn], executes one SQL statement, commits when the
    statement writes, and closes the connection.  The embedding keeps this
    shape: the state threaded through the program is the database file, a
    connection carries its own view of the file together with the settings of
    the session, and [commit] writes the view back.  The input helpers, the
    seed and the loop of the menu, which call this layer from the terminal,
    follow the data-access layer.

    Modelling choices.
    - A table with an [INTEGER PRIMARY KEY AUTOINCREMENT] column is a finite
      map from row ids to the remaining columns, next to the counter that
      SQLite keeps for the table in [sqlite_sequence].
    - Python [int] is [Z], [str] is [string], [Optional[str]] is
      [option string] ([None] is SQL [NULL]), [float] is a binary64 float.
    - A Python value is bound to a parameter of a statement before the
      statement runs.  An [int] outside the signed 64-bit range of [INTEGER]
      raises [OverflowError].  A [float] that is a NaN is bound as [NULL],
      which the [NOT NULL] column [valor] rejects with [IntegrityError]; the
      negative zero is stored, and read back, as the positive zero.  The
      values the [REAL] column holds are a type [real] with the interface
      [Real]; [stored_float] is its instance.
    - The counter that [sqlite_sequence] keeps for a table is a natural
      number without a bound: the error SQLITE_FULL, which an insert raises
      once the counter has reached 2^63 - 1, is not modelled.
    - [FOREIGN KEY ... ON DELETE CASCADE] is part of the schema, and SQLite
      acts on it only in a session where [PRAGMA foreign_keys] is on.  The
      pragma is off in every new connection; it is a field of the connection,
      and the statements below consult it. *)

From stdpp Require Import base option list sorting gmap strings pretty.
From Stdlib Require Import ZArith PrimFloat.

Open Scope Z_scope.

(** The counters of [sqlite_sequence] are natural numbers, read as integers
    where they are compared with row ids. *)
Coercion Z.of_N : N >-> Z.

(** ** Exceptions and results *)

(** The exceptions that [execute] raises in this program:
    [sqlite3.IntegrityError] of a constraint, and [OverflowError] of an [int]
    that cannot be bound. *)
Inductive exn : Type :=
| IntegrityError (msg : string)
| OverflowError (msg : string).

Inductive result (A : Type) : Type :=
| Ok (a : A)
| Raise (e : exn).
Arguments Ok {A} a.
Arguments Raise {A} e.

(** A cursor after [execute]: the attributes the program reads.  The
    program reads [lastrowid] after an INSERT only, and [rowcount] after an
    UPDATE or a DELETE only; [rowcount] is -1 after a SELECT. *)
Record cursor (R : Type) : Type := Cursor {
  lastrowid : Z;
  rowcount : Z;
  fetchall : list R
}.
Arguments Cursor {R} _ _ _.
Arguments lastrowid {R} _.
Arguments rowcount {R} _.
Arguments fetchall {R} _.

Definition fetchone {R : Type} (cur : cursor R) : option R := head (fetchall cur).

(** ** Row ids *)

(** The largest row id of a table, [None] when the table is empty. *)
Definition max_rowid {V : Type} (t : gmap Z V) : option Z :=
  foldr (fun k m => Some (from_option (Z.max k) k m)) None (map_to_list t).*1.

(** The row id an [AUTOINCREMENT] table gives to an inserted row: one more
    than the largest row id of the table and than the largest row id the table
    ever held, which [sqlite_sequence] records. *)
Definition new_rowid {V : Type} (t : gmap Z V) (seq : N) : Z :=
  Z.max (from_option Z.succ 1 (max_rowid t)) (seq + 1).

Definition rowid_le {V : Type} (a b : Z * V) : Prop := a.1 <= b.1.

Global Instance rowid_le_dec {V : Type} (a b : Z * V) : Decision (rowid_le a b).
Proof. unfold rowid_le. apply _. Defined.

(** [ORDER BY id] over a table. *)
Definition order_by_id {V : Type} (t : gmap Z V) : list (Z * V) :=
  merge_sort rowid_le (map_to_list t).

(** ** Binding Python values to the parameters of a statement *)

(** The signed 64-bit range of the storage class [INTEGER]. *)
Definition int64 (z : Z) : Prop := - 2 ^ 63 <= z < 2 ^ 63.

Global Instance int64_dec (z : Z) : Decision (int64 z).
Proof. unfold int64. apply _. Defined.

(** A Python [int] bound to a parameter that is compared with, or stored as,
    a row id of the table [t] with the counter [seq]: [false] when sqlite3
    raises [OverflowError], which it does for an [int] outside [int64].  In a
    file of the program the row ids of a table and its counter are within
    [int64].  The counter of the model has no bound, so that a table of the
    model can hold, or have issued, a row id above [int64]: the range reaches
    up to the counter, and the id of a row of [t] is bound as well.  On a file
    of the program this is the range [int64]. *)
Definition binds_integer {V : Type} (t : gmap Z V) (seq : N) (z : Z) : bool :=
  bool_decide (- 2 ^ 63 <= z <= Z.max (2 ^ 63 - 1) seq)
  || bool_decide (is_Some (t !! z)).

Definition too_large : exn :=
  OverflowError "Python int too large to convert to SQLite INTEGER".

Definition valor_not_null : exn :=
  IntegrityError "NOT NULL constraint failed: pedidos.valor".

(** The negative zero, the one float that a [REAL] column gives back
    changed. *)
Definition neg_zero (x : float) : bool :=
  PrimFloat.is_zero x && PrimFloat.get_sign x.

(** The float that a [REAL] column gives back for the float [x] written to
    it: SQLite keeps a [REAL] that is a whole number as an integer, and reads
    it back as a float. *)
Definition as_stored (x : float) : float :=
  if neg_zero x then PrimFloat.zero else x.

(** The values of the storage class [REAL] as the program meets them:
    [of_float] binds a Python [float] ([None]: a NaN, bound as [NULL]), and
    [to_float] is the [float] that a SELECT returns. *)
Class Real (real : Type) : Type := {
  of_float : float -> option real;
  to_float : real -> float;
  of_float_None x : of_float x = None <-> PrimFloat.is_nan x = true;
  to_of_float x r : of_float x = Some r -> to_float r = as_stored x;
  of_to_float r : of_float (to_float r) = Some r
}.

(** The floats a [REAL] column holds: every float but the NaNs and the
    negative zero. *)
Definition storable (x : float) : bool :=
  negb (PrimFloat.is_nan x) && negb (neg_zero x).

Definition stored_float : Type := { x : float | Is_true (storable x) }.

Definition stored_of_float (x : float) : option stored_float :=
  if PrimFloat.is_nan x then None
  else match decide (Is_true (storable (as_stored x))) with
       | left H => Some (exist _ (as_stored x) H)
       | right _ => None
       end.

Definition float_of_stored (r : stored_float) : float := proj1_sig r.

#[global] Program Instance stored_float_real : Real stored_float := {
  of_float := stored_of_float;
  to_float := float_of_stored
}.
Next Obligation.
  intros x. unfold stored_of_float.
  destruct (PrimFloat.is_nan x) eqn:Hx; [done|].
  destruct (decide _) as [H|H]; [done|].
  destruct H. unfold as_stored, storable.
  destruct (neg_zero x) eqn:Hz; [exact I|].
  rewrite Hx, Hz. exact I.
Qed.
Next Obligation.
  intros x r. unfold stored_of_float.
  destruct (PrimFloat.is_nan x); [done|].
  destruct (decide _) as [H|H]; [|done].
  intros [= <-]. reflexivity.
Qed.
Next Obligation.
  intros [x Hx]. unfold stored_of_float, float_of_stored; simpl.
  assert (PrimFloat.is_nan x = false /\ neg_zero x = false) as [Hn Hz].
  { unfold storable in Hx.
    destruct (PrimFloat.is_nan x), (neg_zero x); simpl in Hx; done. }
  rewrite Hn.
  assert (as_stored x = x) as Hs by (unfold as_stored; by rewrite Hz).
  destruct (decide _) as [H|H].
  - f_equal. by apply (sig_eq_pi _).
  - destruct H. by rewrite Hs.
Qed.

Section app.

(** Values of the [REAL] storage class. *)
Context {real : Type} `{!Real real}.

(** ** Schema ([init_db]) *)

(** clientes (id, nome NOT NULL, email, telefone) *)
Record cliente : Type := Cliente {
  nome : string;
  email : option string;
  telefone : option string
}.

(** pedidos (id, cliente_id NOT NULL, produto NOT NULL, valor NOT NULL,
    data NOT NULL, FOREIGN KEY (cliente_id) REFERENCES clientes(id)
    ON DELETE CASCADE) *)
Record pedido : Type := Pedido {
  cliente_id : Z;
  produto : string;
  valor : real;
  data : string
}.

(** The database file [app.db] once the two tables exist. *)
Record db : Type := Db {
  clientes : gmap Z cliente;
  clientes_seq : N;
  pedidos : gmap Z pedido;
  pedidos_seq : N
}.

Definition empty_db : db := Db ∅ 0%N ∅ 0%N.

(** ** Connections *)

Record connection : Type := Connection {
  foreign_keys : bool;
  view : db
}.

(** [sqlite3.connect]: a new session on the file, foreign keys off. *)
Definition connect (file : db) : connection := Connection false file.

(** [conn.commit()]: the view of the session becomes the file. *)
Definition commit (conn : connection) : db := view conn.

(** Rows as the tuples the program returns. *)
Definition cliente_row : Type := Z * string * option string * option string.
Definition pedido_row : Type := Z * Z * string * float * string.
Definition joined_row : Type :=
  Z * string * float * string * Z * string * option string * option string.

(** The id column of a row: [c[0]], [o[0]], and [r[0]] of a joined row. *)
Definition cliente_row_id (r : cliente_row) : Z := r.1.1.1.
Definition pedido_row_id (r : pedido_row) : Z := r.1.1.1.1.
Definition joined_pedido_id (r : joined_row) : Z := r.1.1.1.1.1.1.1.

Definition cliente_tuple (r : Z * cliente) : cliente_row :=
  (r.1, nome r.2, email r.2, telefone r.2).
Definition pedido_tuple (r : Z * pedido) : pedido_row :=
  (r.1, cliente_id r.2, produto r.2, to_float (valor r.2), data r.2).

(** ** The statements of the program *)

(** INSERT INTO clientes (nome, email, telefone) VALUES (?, ?, ?) *)
Definition exec_insert_clientes (nome : string) (email telefone : option string)
    (conn : connection) : result (cursor () * connection) :=
  let d := view conn in
  let rowid := new_rowid (clientes d) (clientes_seq d) in
  Ok (Cursor rowid 1 [],
      Connection (foreign_keys conn)
        (Db (<[rowid := Cliente nome email telefone]> (clientes d)) (Z.to_N rowid)
            (pedidos d) (pedidos_seq d))).

(** SELECT id, nome, email, telefone FROM clientes ORDER BY id *)
Definition exec_select_clientes (conn : connection)
    : result (cursor cliente_row * connection) :=
  Ok (Cursor 0 (-1) (cliente_tuple <$> order_by_id (clientes (view conn))), conn).

(** SELECT id, nome, email, telefone FROM clientes WHERE id = ? *)
Definition exec_select_clientes_by_id (client_id : Z) (conn : connection)
    : result (cursor cliente_row * connection) :=
  if binds_integer (clientes (view conn)) (clientes_seq (view conn)) client_id then
    Ok (Cursor 0 (-1)
          (match clientes (view conn) !! client_id with
           | Some c => [cliente_tuple (client_id, c)]
           | None => []
           end), conn)
  else Raise too_large.

(** UPDATE clientes SET nome = ?, email = ?, telefone = ? WHERE id = ? *)
Definition exec_update_clientes (nome : string) (email telefone : option string)
    (client_id : Z) (conn : connection) : result (cursor () * connection) :=
  let d := view conn in
  if binds_integer (clientes d) (clientes_seq d) client_id then
    match clientes d !! client_id with
    | Some _ =>
        Ok (Cursor 0 1 [],
            Connection (foreign_keys conn)
              (Db (<[client_id := Cliente nome email telefone]> (clientes d))
                  (clientes_seq d) (pedidos d) (pedidos_seq d)))
    | None => Ok (Cursor 0 0 [], conn)
    end
  else Raise too_large.

(** DELETE FROM clientes WHERE id = ?
    With foreign keys on, ON DELETE CASCADE deletes the rows of pedidos that
    reference the deleted row; they do not count in [rowcount]. *)
Definition exec_delete_clientes (client_id : Z) (conn : connection)
    : result (cursor () * connection) :=
  let d := view conn in
  if binds_integer (clientes d) (clientes_seq d) client_id then
    match clientes d !! client_id with
    | Some _ =>
        Ok (Cursor 0 1 [],
            Connection (foreign_keys conn)
              (Db (delete client_id (clientes d)) (clientes_seq d)
                  (if foreign_keys conn
                   then filter (fun r => cliente_id r.2 ≠ client_id) (pedidos d)
                   else pedidos d)
                  (pedidos_seq d)))
    | None => Ok (Cursor 0 0 [], conn)
    end
  else Raise too_large.

(** The check of FOREIGN KEY (cliente_id) REFERENCES clientes(id) on a row
    written to pedidos: made only with foreign keys on. *)
Definition foreign_key_ok (conn : connection) (cliente_id : Z) : bool :=
  negb (foreign_keys conn)
  || bool_decide (is_Some (clientes (view conn) !! cliente_id)).

(** INSERT INTO pedidos (cliente_id, produto, valor, data) VALUES (?, ?, ?, ?)
    The parameters are bound first; [NOT NULL] is checked on the row, the
    foreign key after it.  A statement that raises writes nothing and issues
    no row id. *)
Definition exec_insert_pedidos (cliente_id : Z) (produto : string) (valor : float)
    (data : string) (conn : connection) : result (cursor () * connection) :=
  let d := view conn in
  if binds_integer (clientes d) (clientes_seq d) cliente_id then
    match of_float valor with
    | Some stored =>
        if foreign_key_ok conn cliente_id then
          let rowid := new_rowid (pedidos d) (pedidos_seq d) in
          Ok (Cursor rowid 1 [],
              Connection (foreign_keys conn)
                (Db (clientes d) (clientes_seq d)
                    (<[rowid := Pedido cliente_id produto stored data]> (pedidos d))
                    (Z.to_N rowid)))
        else Raise (IntegrityError "FOREIGN KEY constraint failed")
    | None => Raise valor_not_null
    end
  else Raise too_large.

(** SELECT id, cliente_id, produto, valor, data FROM pedidos ORDER BY id *)
Definition exec_select_pedidos (conn : connection)
    : result (cursor pedido_row * connection) :=
  Ok (Cursor 0 (-1) (pedido_tuple <$> order_by_id (pedidos (view conn))), conn).

(** SELECT id, cliente_id, produto, valor, data FROM pedidos WHERE id = ? *)
Definition exec_select_pedidos_by_id (order_id : Z) (conn : connection)
    : result (cursor pedido_row * connection) :=
  if binds_integer (pedidos (view conn)) (pedidos_seq (view conn)) order_id then
    Ok (Cursor 0 (-1)
          (match pedidos (view conn) !! order_id with
           | Some p => [pedido_tuple (order_id, p)]
           | None => []
           end), conn)
  else Raise too_large.

(** UPDATE pedidos SET cliente_id = ?, produto = ?, valor = ?, data = ?
    WHERE id = ?
    Both integers are bound before the statement runs; the constraints are
    checked on the row the statement matches, and on no row when it matches
    none. *)
Definition exec_update_pedidos (cliente_id : Z) (produto : string) (valor : float)
    (data : string) (order_id : Z) (conn : connection)
    : result (cursor () * connection) :=
  let d := view conn in
  if binds_integer (clientes d) (clientes_seq d) cliente_id
     && binds_integer (pedidos d) (pedidos_seq d) order_id then
    match pedidos d !! order_id with
    | Some _ =>
        match of_float valor with
        | Some stored =>
            if foreign_key_ok conn cliente_id then
              Ok (Cursor 0 1 [],
                  Connection (foreign_keys conn)
                    (Db (clientes d) (clientes_seq d)
                        (<[order_id := Pedido cliente_id produto stored data]>
                           (pedidos d))
                        (pedidos_seq d)))
            else Raise (IntegrityError "FOREIGN KEY constraint failed")
        | None => Raise valor_not_null
        end
    | None => Ok (Cursor 0 0 [], conn)
    end
  else Raise too_large.

(** DELETE FROM pedidos WHERE id = ? *)
Definition exec_delete_pedidos (order_id : Z) (conn : connection)
    : result (cursor () * connection) :=
  let d := view conn in
  if binds_integer (pedidos d) (pedidos_seq d) order_id then
    match pedidos d !! order_id with
    | Some _ =>
        Ok (Cursor 0 1 [],
            Connection (foreign_keys conn)
              (Db (clientes d) (clientes_seq d) (delete order_id (pedidos d))
                  (pedidos_seq d)))
    | None => Ok (Cursor 0 0 [], conn)
    end
  else Raise too_large.

(** The rows of clientes that join one row of pedidos. *)
Definition join_clientes (d : db) (p : Z * pedido) : list joined_row :=
  c ← map_to_list (clientes d);
  if decide (cliente_id p.2 = c.1)
  then [(p.1, produto p.2, to_float (valor p.2), data p.2,
          c.1, nome c.2, email c.2, telefone c.2)]
  else [].

(** SELECT p.id, p.produto, p.valor, p.data, c.id, c.nome, c.email, c.telefone
    FROM pedidos p JOIN clientes c ON p.cliente_id = c.id ORDER BY p.id *)
Definition exec_select_pedidos_join_clientes (conn : connection)
    : result (cursor joined_row * connection) :=
  Ok (Cursor 0 (-1)
        (order_by_id (pedidos (view conn)) ≫= join_clientes (view conn)), conn).

(** ** The program *)

(** [get_conn]: [sqlite3.connect(DB_PATH)], and nothing else. *)
Definition get_conn (file : db) : connection := connect file.

(** [init_db]: CREATE TABLE IF NOT EXISTS for both tables, then commit.
    [None] is a file that does not hold the tables yet. *)
Definition init_db (file : option db) : db :=
  let conn := get_conn (default empty_db file) in
  commit conn.

Definition add_client (nome : string) (email telefone : option string) (file : db)
    : result Z * db :=
  let conn := get_conn file in
  match exec_insert_clientes nome email telefone conn with
  | Ok (cur, conn) =>
      let file := commit conn in
      let client_id := lastrowid cur in
      (Ok client_id, file)
  | Raise e => (Raise e, file)
  end.

Definition get_clients (file : db) : result (list cliente_row) * db :=
  let conn := get_conn file in
  match exec_select_clientes conn with
  | Ok (cur, conn) =>
      let rows := fetchall cur in
      (Ok rows, file)
  | Raise e => (Raise e, file)
  end.

Definition get_client_by_id (client_id : Z) (file : db)
    : result (option cliente_row) * db :=
  let conn := get_conn file in
  match exec_select_clientes_by_id client_id conn with
  | Ok (cur, conn) =>
      let row := fetchone cur in
      (Ok row, file)
  | Raise e => (Raise e, file)
  end.

Definition update_client (client_id : Z) (nome : string)
    (email telefone : option string) (file : db) : result bool * db :=
  let conn := get_conn file in
  match exec_update_clientes nome email telefone client_id conn with
  | Ok (cur, conn) =>
      let file := commit conn in
      let changed := bool_decide (rowcount cur > 0) in
      (Ok changed, file)
  | Raise e => (Raise e, file)
  end.

Definition delete_client (client_id : Z) (file : db) : result bool * db :=
  let conn := get_conn file in
  match exec_delete_clientes client_id conn with
  | Ok (cur, conn) =>
      let file := commit conn in
      let changed := bool_decide (rowcount cur > 0) in
      (Ok changed, file)
  | Raise e => (Raise e, file)
  end.

Definition add_order (cliente_id : Z) (produto : string) (valor : float)
    (data : string) (file : db) : result Z * db :=
  let conn := get_conn file in
  match exec_insert_pedidos cliente_id produto valor data conn with
  | Ok (cur, conn) =>
      let file := commit conn in
      let order_id := lastrowid cur in
      (Ok order_id, file)
  | Raise e => (Raise e, file)
  end.

Definition get_orders (file : db) : result (list pedido_row) * db :=
  let conn := get_conn file in
  match exec_select_pedidos conn with
  | Ok (cur, conn) =>
      let rows := fetchall cur in
      (Ok rows, file)
  | Raise e => (Raise e, file)
  end.

Definition get_order_by_id (order_id : Z) (file : db)
    : result (option pedido_row) * db :=
  let conn := get_conn file in
  match exec_select_pedidos_by_id order_id conn with
  | Ok (cur, conn) =>
      let row := fetchone cur in
      (Ok row, file)
  | Raise e => (Raise e, file)
  end.

Definition update_order (order_id cliente_id : Z) (produto : string)
    (valor : float) (data : string) (file : db) : result bool * db :=
  let conn := get_conn file in
  match exec_update_pedidos cliente_id produto valor data order_id conn with
  | Ok (cur, conn) =>
      let file := commit conn in
      let changed := bool_decide (rowcount cur > 0) in
      (Ok changed, file)
  | Raise e => (Raise e, file)
  end.

Definition delete_order (order_id : Z) (file : db) : result bool * db :=
  let conn := get_conn file in
  match exec_delete_pedidos order_id conn with
  | Ok (cur, conn) =>
      let file := commit conn in
      let changed := bool_decide (rowcount cur > 0) in
      (Ok changed, file)
  | Raise e => (Raise e, file)
  end.

Definition list_orders_with_clients (file : db) : result (list joined_row) * db :=
  let conn := get_conn file in
  match exec_select_pedidos_join_clientes conn with
  | Ok (cur, conn) =>
      let rows := fetchall cur in
      (Ok rows, file)
  | Raise e => (Raise e, file)
  end.

(** ** Sequences of calls *)

(** A call of the data-access layer, as the menu makes them. *)
Inductive call : Type :=
| Add_client (nome : string) (email telefone : option string)
| Get_clients
| Get_client_by_id (client_id : Z)
| Update_client (client_id : Z) (nome : string) (email telefone : option string)
| Delete_client (client_id : Z)
| Add_order (cliente_id : Z) (produto : string) (valor : float) (data : string)
| Get_orders
| Get_order_by_id (order_id : Z)
| Update_order (order_id cliente_id : Z) (produto : string) (valor : float)
    (data : string)
| Delete_order (order_id : Z)
| List_orders_with_clients.

(** The calls that only read. *)
Inductive query : Type :=
| Q_clients
| Q_client_by_id (client_id : Z)
| Q_orders
| Q_order_by_id (order_id : Z)
| Q_orders_with_clients.

Definition query_call (q : query) : call :=
  match q with
  | Q_clients => Get_clients
  | Q_client_by_id i => Get_client_by_id i
  | Q_orders => Get_orders
  | Q_order_by_id i => Get_order_by_id i
  | Q_orders_with_clients => List_orders_with_clients
  end.

(** What a call returns. *)
Inductive value : Type :=
| V_id (i : Z)
| V_bool (b : bool)
| V_clients (rows : list cliente_row)
| V_client (row : option cliente_row)
| V_orders (rows : list pedido_row)
| V_order (row : option pedido_row)
| V_joined (rows : list joined_row).

Definition returning {A : Type} (f : A -> value) (r : result A * db)
    : result value * db :=
  (match r.1 with Ok a => Ok (f a) | Raise e => Raise e end, r.2).

Definition step (c : call) (file : db) : result value * db :=
  match c with
  | Add_client n e t => returning V_id (add_client n e t file)
  | Get_clients => returning V_clients (get_clients file)
  | Get_client_by_id i => returning V_client (get_client_by_id i file)
  | Update_client i n e t => returning V_bool (update_client i n e t file)
  | Delete_client i => returning V_bool (delete_client i file)
  | Add_order c p v d => returning V_id (add_order c p v d file)
  | Get_orders => returning V_orders (get_orders file)
  | Get_order_by_id i => returning V_order (get_order_by_id i file)
  | Update_order i c p v d => returning V_bool (update_order i c p v d file)
  | Delete_order i => returning V_bool (delete_order i file)
  | List_orders_with_clients => returning V_joined (list_orders_with_clients file)
  end.

(** The calls of a session one after the other: each with what it returned,
    and the file at the end. *)
Fixpoint run (cs : list call) (file : db) : list (call * result value) * db :=
  match cs with
  | [] => ([], file)
  | c :: cs =>
      let r := step c file in
      let rest := run cs r.2 in
      ((c, r.1) :: rest.1, rest.2)
  end.

(** The ids that [add_client] and [add_order] returned in a session, in the
    order of the calls. *)
Definition client_id_issued (e : call * result value) : option Z :=
  match e with
  | (Add_client _ _ _, Ok (V_id i)) => Some i
  | _ => None
  end.

Definition order_id_issued (e : call * result value) : option Z :=
  match e with
  | (Add_order _ _ _ _, Ok (V_id i)) => Some i
  | _ => None
  end.

Definition client_ids_issued (cs : list call) (file : db) : list Z :=
  omap client_id_issued (run cs file).1.

Definition order_ids_issued (cs : list call) (file : db) : list Z :=
  omap order_id_issued (run cs file).1.

End app.

Arguments pedido real : clear implicits.
Arguments db real : clear implicits.
Arguments connection real : clear implicits.
(** ** Notions for the properties of the data-access layer *)

Section notions.

Context {real : Type} `{!Real real}.


Definition replace_pedido_row (i ci : Z) (p : string) (v : float) (d : string)
    (r : pedido_row) : pedido_row :=
  if decide (pedido_row_id r = i) then (i, ci, p, v, d) else r.

(** [o[1]] of a row of pedidos. *)
Definition pedido_row_cliente_id (r : pedido_row) : Z := r.1.1.1.2.

(** The joined row of an order and a client. *)
Definition join_rows (o : pedido_row) (c : cliente_row) : joined_row :=
  let '(oi, _, p, v, d) := o in
  let '(ci, n, e, t) := c in
  (oi, p, v, d, ci, n, e, t).

(** A row of [get_orders] with the client that [get_client_by_id] returns
    for its [cliente_id], if it returns one. *)
Definition joined_with (s : db real) (o : pedido_row)
    : option joined_row :=
  match (get_client_by_id (pedido_row_cliente_id o) s).1 with
  | Ok (Some c) => Some (join_rows o c)
  | _ => None
  end.

(** Every order references a client that exists. *)
Definition referential_integrity (s : db real) : Prop :=
  forall (oi : Z) (o : pedido real),
    pedidos s !! oi = Some o -> is_Some (clientes s !! cliente_id o).

(** The calls that the check of the foreign key would let through: an order
    is written for a client that exists, and a deleted client has no
    orders. *)
Definition respects_foreign_key (c : call) (s : db real) : Prop :=
  match c with
  | Add_order ci _ _ _ => is_Some (clientes s !! ci)
  | Update_order _ ci _ _ _ => is_Some (clientes s !! ci)
  | Delete_client i =>
      forall (oi : Z) (o : pedido real), pedidos s !! oi = Some o -> cliente_id o <> i
  | _ => True
  end.





(** Every call of a session respects the foreign key in the file it is made
    on. *)
Fixpoint respects_along (cs : list call) (s : db real) : Prop :=
  match cs with
  | [] => True
  | c :: cs => respects_foreign_key c s /\ respects_along cs (step c s).2
  end.

End notions.


(** ** The terminal

    The functions below the data-access layer read lines from the standard
    input and write to the standard output.  A [world] holds the lines still
    to be read, what was written so far, and the database file.  The builtins
    of Python that the program calls on its input are parameters.  The
    interrupt of the user ([KeyboardInterrupt]) is an event from outside and
    is left out; the date of today is one value for the whole session.  An
    exception of the data-access layer is caught nowhere: it ends the
    function that made the call. *)

#[local] Set Warnings "-inexact-float".

(** What [print] and the prompt of [input] write. *)
Inductive written : Type :=
| Line (s : string)
| Prompt (s : string).

(** What ends a function of the terminal: [ValueError] and [EOFError] of
    the builtins, and an exception of a call of the data-access layer, which
    no function catches. *)
Inductive raised : Type :=
| ValueError
| EOFError
| Propagated (e : exn).

(** How a function ends: it returns, it raises, or its [while True] loop
    did not end within the rounds it was given. *)
Inductive outcome (A : Type) : Type :=
| Returns (a : A)
| Raises (e : raised)
| Diverges.
Arguments Returns {A} a.
Arguments Raises {A} e.
Arguments Diverges {A}.

(** [str.strip], [int] and [float] on a string ([None] is [ValueError]),
    whether [datetime.date.fromisoformat] accepts a string,
    [datetime.date.today().isoformat()], and the text of a float in an
    f-string.  [int] returns integers of any size, and [float] returns NaNs
    and infinities for the texts that name them. *)
Record builtins : Type := Builtins {
  strip : string -> string;
  int_of_str : string -> option Z;
  float_of_str : string -> option float;
  fromisoformat : string -> bool;
  today : string;
  str_of_float : float -> string
}.

Section shell.

Context {real : Type} `{!Real real}.
Context (py : builtins).

Record world : Type := World {
  stdin : list string;
  stdout : list written;
  file : db real
}.

Definition sh (A : Type) : Type := world -> outcome A * world.

Definition sh_ret {A : Type} (a : A) : sh A := fun w => (Returns a, w).

Definition sh_bind {A B : Type} (m : sh A) (k : A -> sh B) : sh B :=
  fun w =>
    match m w with
    | (Returns a, w') => k a w'
    | (Raises e, w') => (Raises e, w')
    | (Diverges, w') => (Diverges, w')
    end.

#[global] Instance sh_mret : MRet sh := @sh_ret.
#[global] Instance sh_mbind : MBind sh := fun A B k m => sh_bind m k.
#[global] Instance sh_fmap : FMap sh := fun A B f m => sh_bind m (fun a => sh_ret (f a)).

(** [print(s)] *)
Definition print (s : string) : sh () :=
  fun w => (Returns (), World (stdin w) (stdout w ++ [Line s]) (file w)).

(** [input(prompt)]: writes the prompt, then reads a line; [EOFError] when
    no line is left. *)
Definition input (prompt : string) : sh string :=
  fun w =>
    match stdin w with
    | [] => (Raises EOFError, World [] (stdout w ++ [Prompt prompt]) (file w))
    | l :: ls => (Returns l, World ls (stdout w ++ [Prompt prompt]) (file w))
    end.

(** A call of the data-access layer on the file of the world. *)
Definition on_file {A : Type} (f : db real -> result A * db real) : sh A :=
  fun w =>
    let r := f (file w) in
    (match r.1 with Ok a => Returns a | Raise e => Raises (Propagated e) end,
     World (stdin w) (stdout w) r.2).

(** [while True: body]: the body returns [Some a] to leave the loop with
    [a] ([return a], [break]) and [None] to go round again. *)
Fixpoint while_true {A : Type} (rounds : nat) (body : sh (option A)) : sh A :=
  fun w =>
    match rounds with
    | O => (Diverges, w)
    | S n =>
        match body w with
        | (Returns (Some a), w') => (Returns a, w')
        | (Returns None, w') => while_true n body w'
        | (Raises e, w') => (Raises e, w')
        | (Diverges, w') => (Diverges, w')
        end
    end.

(** Every round of the loops of the program reads a line, so a loop on a
    world with [n] lines to read ends within [n + 1] rounds. *)
Definition rounds (w : world) : nat := S (length (stdin w)).

(** [for x in l: body(x)] *)
Fixpoint for_each {A : Type} (l : list A) (body : A -> sh ()) : sh () :=
  match l with
  | [] => mret ()
  | x :: l => body x;; for_each l body
  end.

(** [s or x] on a string [s]: [x] when [s] is empty. *)
Definition str_or {A : Type} (inj : string -> A) (s : string) (x : A) : A :=
  if decide (s = EmptyString) then x else inj s.

(** The text of an [int] and of an [Optional[str]] in an f-string. *)
Definition str_of_int (z : Z) : string := pretty z.
Definition str_of_optional (o : option string) : string := default "None" o.

(** ** Input helpers *)

Definition input_int (prompt : string) : sh Z :=
  fun w =>
    while_true (rounds w)
      (s ← input prompt;
       match int_of_str py (strip py s) with
       | Some z => mret (Some z)
       | None =>
           print "Entrada inválida. Digite um número inteiro.";;
           mret None
       end) w.

Definition input_float (prompt : string) : sh float :=
  fun w =>
    while_true (rounds w)
      (s ← input prompt;
       match float_of_str py (strip py s) with
       | Some x => mret (Some x)
       | None =>
           print "Entrada inválida. Digite um número (ex: 12.50).";;
           mret None
       end) w.

Definition input_date (prompt : string) : sh string :=
  fun w =>
    while_true (rounds w)
      (s ← input prompt;
       let s := strip py s in
       if decide (s = EmptyString) then mret (Some (today py))
       else if fromisoformat py s then mret (Some s)
       else
         print "Formato inválido. Use AAAA-MM-DD ou deixe em branco para usar a data de hoje.";;
         mret None) w.

(** ** The menu *)

Definition print_header : sh () :=
  print "==================================================";;
  print "       Sistema Clientes & Pedidos (SQLite)        ";;
  print "==================================================".

Definition menu : sh () :=
  print_header;;
  print "1. Clientes: listar";;
  print "2. Clientes: criar";;
  print "3. Clientes: atualizar";;
  print "4. Clientes: deletar";;
  print "5. Pedidos: listar";;
  print "6. Pedidos: criar";;
  print "7. Pedidos: atualizar";;
  print "8. Pedidos: deletar";;
  print "9. Listar pedidos com dados do cliente (JOIN)";;
  print "10. Popular exemplo (seed)";;
  print "0. Sair";;
  print "--------------------------------------------------".

(** The product of the second order of the seed: [Monitor 24], then a
    double quote. *)
Definition monitor_24 : string :=
  "Monitor 24" +:+ String (Ascii.ascii_of_nat 34) EmptyString.

Definition seed_example : sh () :=
  clients ← on_file get_clients;
  match clients with
  | _ :: _ => print "O banco já possui dados. Seed não será aplicado."
  | [] =>
      c1 ← on_file (add_client "Ana Silva" (Some "ana@example.com") (Some "11999990000"));
      c2 ← on_file (add_client "Bruno Costa" (Some "bruno@example.com") (Some "21988880000"));
      on_file (add_order c1 "Teclado mecânico" 299.90%float (today py));;
      on_file (add_order c2 monitor_24 799.50%float (today py));;
      print "Dados de exemplo inseridos."
  end.

(** The branches of [main_loop], one for each choice.  A branch returns
    [None] to go round the loop again, [Some ()] to leave it. *)

Definition choice_1 : sh (option ()) :=
  clients ← on_file get_clients;
  match clients with
  | [] => print "Nenhum cliente cadastrado."
  | _ :: _ =>
      print "Clientes:";;
      for_each clients (fun '(i, n, e, t) =>
        print ("ID=" +:+ str_of_int i +:+ " | Nome=" +:+ n +:+ " | Email="
               +:+ str_of_optional e +:+ " | Telefone=" +:+ str_of_optional t))
  end;;
  mret None.

Definition choice_2 : sh (option ()) :=
  nome ← strip py <$> input "Nome: ";
  email ← (fun s => str_or Some s None) ∘ strip py <$> input "Email (opcional): ";
  telefone ← (fun s => str_or Some s None) ∘ strip py <$> input "Telefone (opcional): ";
  if decide (nome = EmptyString) then
    print "Nome é obrigatório.";;
    mret None
  else
    cid ← on_file (add_client nome email telefone);
    print ("Cliente criado com id " +:+ str_of_int cid +:+ ".");;
    mret None.

Definition choice_3 : sh (option ()) :=
  client_id ← input_int "ID do cliente a atualizar: ";
  existing ← on_file (get_client_by_id client_id);
  match existing with
  | None =>
      print "Cliente não encontrado.";;
      mret None
  | Some (_, n0, e0, t0) =>
      print ("Atualizando cliente (atual) Nome=" +:+ n0 +:+ ", Email="
             +:+ str_of_optional e0 +:+ ", Telefone=" +:+ str_of_optional t0);;
      nome ← (fun s => str_or id s n0) ∘ strip py
             <$> input "Novo nome (deixe em branco para manter): ";
      email ← (fun s => str_or Some s e0) ∘ strip py
              <$> input "Novo email (deixe em branco para manter): ";
      telefone ← (fun s => str_or Some s t0) ∘ strip py
                 <$> input "Novo telefone (deixe em branco para manter): ";
      success ← on_file (update_client client_id nome email telefone);
      print (if success : bool then "Atualizado." else "Falha ao atualizar.");;
      mret None
  end.

Definition choice_4 : sh (option ()) :=
  client_id ← input_int "ID do cliente a deletar: ";
  success ← on_file (delete_client client_id);
  print (if success : bool then "Cliente deletado." else "Cliente não encontrado.");;
  mret None.

Definition choice_5 : sh (option ()) :=
  orders ← on_file get_orders;
  match orders with
  | [] => print "Nenhum pedido cadastrado."
  | _ :: _ =>
      print "Pedidos:";;
      for_each orders (fun '(i, ci, p, v, d) =>
        print ("ID=" +:+ str_of_int i +:+ " | ClienteID=" +:+ str_of_int ci
               +:+ " | Produto=" +:+ p +:+ " | Valor=" +:+ str_of_float py v
               +:+ " | Data=" +:+ d))
  end;;
  mret None.

Definition choice_6 : sh (option ()) :=
  cliente_id ← input_int "ID do cliente para este pedido: ";
  client ← on_file (get_client_by_id cliente_id);
  match client with
  | None =>
      print "Cliente não existe. Crie o cliente primeiro.";;
      mret None
  | Some _ =>
      produto ← strip py <$> input "Produto: ";
      valor ← input_float "Valor (ex: 199.90): ";
      data ← input_date "Data (AAAA-MM-DD, deixe em branco para hoje): ";
      oid ← on_file (add_order cliente_id produto valor data);
      print ("Pedido criado com id " +:+ str_of_int oid +:+ ".");;
      mret None
  end.

Definition choice_7 : sh (option ()) :=
  order_id ← input_int "ID do pedido a atualizar: ";
  existing ← on_file (get_order_by_id order_id);
  match existing with
  | None =>
      print "Pedido não encontrado.";;
      mret None
  | Some (_, ci0, p0, v0, d0) =>
      print ("Atualizando pedido (atual) ClienteID=" +:+ str_of_int ci0
             +:+ ", Produto=" +:+ p0 +:+ ", Valor=" +:+ str_of_float py v0
             +:+ ", Data=" +:+ d0);;
      cliente_id ← input_int "Novo Cliente ID (ou o mesmo): ";
      client ← on_file (get_client_by_id cliente_id);
      match client with
      | None =>
          print "Cliente não existe.";;
          mret None
      | Some _ =>
          produto ← (fun s => str_or id s p0) ∘ strip py
                    <$> input "Novo produto (deixe em branco para manter): ";
          valor_input ← strip py <$> input "Novo valor (deixe em branco para manter): ";
          valor ← (if decide (valor_input = EmptyString) then mret v0
                   else match float_of_str py valor_input with
                        | Some x => mret x
                        | None => fun w => (Raises ValueError, w)
                        end);
          data ← (fun s => str_or id s d0) ∘ strip py
                 <$> input "Nova data AAAA-MM-DD (deixe em branco para manter): ";
          success ← on_file (update_order order_id cliente_id produto valor data);
          print (if success : bool then "Pedido atualizado." else "Falha ao atualizar.");;
          mret None
      end
  end.

Definition choice_8 : sh (option ()) :=
  order_id ← input_int "ID do pedido a deletar: ";
  success ← on_file (delete_order order_id);
  print (if success : bool then "Pedido deletado." else "Pedido não encontrado.");;
  mret None.

Definition choice_9 : sh (option ()) :=
  rows ← on_file list_orders_with_clients;
  match rows with
  | [] => print "Nenhum pedido com cliente encontrado."
  | _ :: _ =>
      for_each rows (fun '(oi, p, v, d, ci, n, e, t) =>
        print ("PedidoID=" +:+ str_of_int oi +:+ " | Produto=" +:+ p
               +:+ " | Valor=" +:+ str_of_float py v +:+ " | Data=" +:+ d);;
        print ("  -> ClienteID=" +:+ str_of_int ci +:+ " | Nome=" +:+ n
               +:+ " | Email=" +:+ str_of_optional e +:+ " | Telefone="
               +:+ str_of_optional t);;
        print "----------------------------------------")
  end;;
  mret None.

(** One round of the loop of [main_loop]. *)
Definition menu_round : sh (option ()) :=
  menu;;
  choice ← strip py <$> input "Escolha uma opção: ";
  if decide (choice = "1") then choice_1
  else if decide (choice = "2") then choice_2
  else if decide (choice = "3") then choice_3
  else if decide (choice = "4") then choice_4
  else if decide (choice = "5") then choice_5
  else if decide (choice = "6") then choice_6
  else if decide (choice = "7") then choice_7
  else if decide (choice = "8") then choice_8
  else if decide (choice = "9") then choice_9
  else if decide (choice = "10") then seed_example;; mret None
  else if decide (choice = "0") then print "Saindo...";; mret (Some ())
  else print "Opção inválida. Tente novamente.";; mret None.

(** [main_loop] on the lines of the standard input and the database file,
    [None] when the file does not hold the tables yet. *)
Definition main_loop (lines : list string) (f : option (db real))
    : outcome () * world :=
  let w := World lines [] (init_db f) in
  while_true (rounds w) menu_round w.

(** The value of a line for [input_date]. *)
Definition date_of_line (l : string) : option string :=
  let s := strip py l in
  if decide (s = EmptyString) then Some (today py)
  else if fromisoformat py s then Some s else None.

End shell.

Arguments world real : clear implicits.
Arguments sh real A : clear implicits.

(** [m], run on [w], ends in an outcome and a world that satisfy [Q]. *)
Definition sat {real A : Type} (m : sh real A) (w : world real)
    (Q : outcome A -> world real -> Prop) : Prop :=
  Q (m w).1 (m w).2.

(** What a computation that only reads the terminal may do to the world:
    it reads lines, it writes, and it leaves the file. *)
Definition reads_from {real : Type} (w w' : world real) : Prop :=
  stdin w' `suffix_of` stdin w /\ file w' = file w.

(** The exceptions of the data-access layer that reach the menu. *)
Definition binding_error (e : exn) : Prop := e = too_large \/ e = valor_not_null.

(** How a branch of the menu may end and what it may do: it goes round
    again, or raises [EOFError] with no line left, or raises [ValueError], or
    ends in the exception of a call of the data-access layer; it reads lines;
    and, where [keeps] is set, it keeps every order on a client that
    exists. *)
Definition branch_post {real : Type} (keeps : bool) (w : world real)
    (o : outcome (option ())) (w' : world real) : Prop :=
  (o = Returns None \/ o = Raises EOFError \/ o = Raises ValueError \/
   exists e, binding_error e /\ o = Raises (Propagated e)) /\
  (o = Raises EOFError -> stdin w' = []) /\
  stdin w' `suffix_of` stdin w /\
  (keeps = true -> referential_integrity (file w) -> referential_integrity (file w')).

(** How a round of the menu may end and what it may do. *)
Definition round_post {real : Type} (py : builtins) (w : world real)
    (o : outcome (option ())) (w' : world real) : Prop :=
  (o = Returns None \/ o = Returns (Some ()) \/ o = Raises EOFError \/
   o = Raises ValueError \/
   exists e, binding_error e /\ o = Raises (Propagated e)) /\
  (o = Raises EOFError -> stdin w' = []) /\
  stdin w' `suffix_of` stdin w /\
  (o = Returns None -> (length (stdin w') < length (stdin w))%nat) /\
  (referential_integrity (file w) ->
   (forall l, head (stdin w) = Some l -> strip py l <> "4") ->
   referential_integrity (file w')).

(** ** A small instance of the builtins, for the examples

    Blanks are spaces, integers are written with decimal digits and an
    optional minus sign, a float is written with an optional minus sign,
    decimal digits and dots, of which the first counts, or is the text [nan],
    a date is any text of ten characters, and today is 2024-01-01.  The text of a float is not part of the examples:
    every float is written as [<float>]. *)

Fixpoint drop_spaces (s : string) : string :=
  match s with
  | String a s' => if Ascii.eqb a (Ascii.ascii_of_nat 32) then drop_spaces s' else s
  | EmptyString => s
  end.

Definition example_strip (s : string) : string :=
  String.rev (drop_spaces (String.rev (drop_spaces s))).

Fixpoint digits_value (s : string) (acc : Z) : option Z :=
  match s with
  | EmptyString => Some acc
  | String a s' =>
      let d := Z.of_nat (Ascii.nat_of_ascii a) - 48 in
      if bool_decide (0 <= d <= 9) then digits_value s' (10 * acc + d) else None
  end.

Definition example_int (s : string) : option Z :=
  match s with
  | EmptyString => None
  | String a s' =>
      if Ascii.eqb a (Ascii.ascii_of_nat 45)
      then match s' with EmptyString => None | _ => Z.opp <$> digits_value s' 0 end
      else digits_value s 0
  end.

Fixpoint without_dot (s : string) : string :=
  match s with
  | String a s' =>
      if Ascii.eqb a (Ascii.ascii_of_nat 46) then without_dot s'
      else String a (without_dot s')
  | EmptyString => s
  end.

(** The number of characters after the first dot. *)
Fixpoint decimals (s : string) : nat :=
  match s with
  | String a s' =>
      if Ascii.eqb a (Ascii.ascii_of_nat 46) then String.length s' else decimals s'
  | EmptyString => O
  end.

Fixpoint float_of_positive (p : positive) : float :=
  match p with
  | xH => 1%float
  | xO q => (2 * float_of_positive q)%float
  | xI q => (2 * float_of_positive q + 1)%float
  end.

Definition float_of_Z (z : Z) : float :=
  match z with
  | Z0 => 0%float
  | Zpos p => float_of_positive p
  | Zneg p => (- float_of_positive p)%float
  end.

Definition unsigned_float (s : string) : option float :=
  match without_dot s with
  | EmptyString => None
  | digits =>
      z ← digits_value digits 0;
      Some (float_of_Z z / float_of_Z (10 ^ Z.of_nat (decimals s)))%float
  end.

Definition example_float (s : string) : option float :=
  if decide (s = "nan") then Some PrimFloat.nan
  else match s with
       | String a s' =>
           if Ascii.eqb a (Ascii.ascii_of_nat 45)
           then PrimFloat.opp <$> unsigned_float s'
           else unsigned_float s
       | EmptyString => None
       end.

Definition example_builtins : builtins :=
  Builtins example_strip example_int example_float
    (fun s => bool_decide (String.length s = 10%nat)) "2024-01-01"
    (fun _ => "<float>").


(** ** Sessions on a new file

    Concrete files, with the amounts a [REAL] column holds as [stored_float]. *)

#[local] Set Warnings "-inexact-float".

Definition new_file : db stored_float := init_db None.

(** One client, Ana, and one order of hers. *)
Definition ana_session : list call :=
  [Add_client "Ana" (Some "a@x.com") (Some "111");
   Add_order 1 "Widget" 9.99%float "2024-01-01"].

Definition ana_file : db stored_float := (run ana_session new_file).2.

(** Three clients, the second deleted, then a fourth. *)
Definition four_clients_session : list call :=
  [Add_client "C1" None None;
   Add_client "C2" None None;
   Add_client "C3" None None;
   Delete_client 2;
   Add_client "C4" None None].

(** A client added, deleted, and another client added. *)
Definition readd_session : list call :=
  [Add_client "C1" None None;
   Delete_client 1;
   Add_client "C2" None None].

(** ** Facts about row ids and [ORDER BY id] *)

Lemma max_rowid_keys_ge (l : list Z) (k : Z) :
  k ∈ l ->
  exists m, foldr (fun k m => Some (from_option (Z.max k) k m)) None l = Some m /\ k <= m.
Proof.
  induction l as [|x l IH]; intros Hk.
  - by apply elem_of_nil in Hk.
  - apply elem_of_cons in Hk as [->|Hk]; simpl.
    + destruct (foldr _ None l) as [m|]; simpl; eexists; split; eauto; lia.
    + destruct (IH Hk) as (m & -> & Hm). simpl. eexists; split; eauto. lia.
Qed.

Lemma max_rowid_ge {V : Type} (t : gmap Z V) (k : Z) (v : V) :
  t !! k = Some v -> exists m, max_rowid t = Some m /\ k <= m.
Proof.
  intros Hk. apply max_rowid_keys_ge.
  apply list_elem_of_fmap. exists (k, v). split; [done|].
  by apply elem_of_map_to_list.
Qed.

Lemma new_rowid_gt_seq {V : Type} (t : gmap Z V) (seq : N) :
  Z.of_N seq < new_rowid t seq.
Proof. unfold new_rowid. lia. Qed.

Lemma new_rowid_to_N {V : Type} (t : gmap Z V) (seq : N) :
  Z.of_N (Z.to_N (new_rowid t seq)) = new_rowid t seq.
Proof. pose proof (new_rowid_gt_seq t seq). lia. Qed.

Lemma new_rowid_gt_key {V : Type} (t : gmap Z V) (seq : N) (k : Z) (v : V) :
  t !! k = Some v -> k < new_rowid t seq.
Proof.
  intros Hk. destruct (max_rowid_ge t k v Hk) as (m & Hm & Hle).
  unfold new_rowid. rewrite Hm. simpl. lia.
Qed.


Global Instance rowid_le_total {V : Type} : Total (@rowid_le V).
Proof. intros a b. unfold rowid_le. lia. Qed.

Global Instance rowid_le_trans {V : Type} : Transitive (@rowid_le V).
Proof. intros a b c. unfold rowid_le. lia. Qed.

Lemma elem_of_order_by_id {V : Type} (t : gmap Z V) (k : Z) (v : V) :
  (k, v) ∈ order_by_id t <-> t !! k = Some v.
Proof.
  unfold order_by_id. rewrite merge_sort_Permutation.
  apply elem_of_map_to_list.
Qed.

Lemma NoDup_order_by_id {V : Type} (t : gmap Z V) : NoDup (order_by_id t).*1.
Proof.
  unfold order_by_id. rewrite merge_sort_Permutation.
  apply NoDup_fst_map_to_list.
Qed.

Lemma StronglySorted_le_NoDup_lt (l : list Z) :
  StronglySorted Z.le l -> NoDup l -> StronglySorted Z.lt l.
Proof.
  induction 1 as [|x l Hl IH Hx]; intros Hnd; [constructor|].
  apply NoDup_cons in Hnd as [Hnotin Hnd].
  constructor; [by apply IH|].
  apply Forall_forall. intros y Hy.
  rewrite Forall_forall in Hx. specialize (Hx y Hy).
  assert (x <> y) by (intros ->; done). lia.
Qed.

Lemma StronglySorted_fst {V : Type} (l : list (Z * V)) :
  StronglySorted rowid_le l -> StronglySorted Z.le l.*1.
Proof.
  induction 1 as [|x l Hl IH Hx]; simpl; constructor; [done|].
  apply Forall_fmap. eapply Forall_impl; [exact Hx|]. by intros y Hy.
Qed.

(** [ORDER BY id] lists the rows by strictly ascending row id. *)
Lemma order_by_id_ascending {V : Type} (t : gmap Z V) :
  StronglySorted Z.lt (order_by_id t).*1.
Proof.
  apply StronglySorted_le_NoDup_lt; [|apply NoDup_order_by_id].
  apply StronglySorted_fst. unfold order_by_id.
  apply StronglySorted_merge_sort; apply _.
Qed.


(** ** Binding an integer *)

Lemma binds_integer_int64 {V : Type} (t : gmap Z V) (seq : N) (z : Z) :
  int64 z -> binds_integer t seq z = true.
Proof.
  intros Hz. unfold binds_integer, int64 in *.
  rewrite bool_decide_true; [done|lia].
Qed.

Lemma binds_integer_stored {V : Type} (t : gmap Z V) (seq : N) (z : Z) :
  is_Some (t !! z) -> binds_integer t seq z = true.
Proof.
  intros Hz. unfold binds_integer.
  rewrite (bool_decide_true (is_Some _)) by done.
  by rewrite orb_true_r.
Qed.


(** In a table whose counter is within the 64-bit range, the integers that
    are not bound are those outside the range that are the id of no row. *)
Lemma binds_integer_false {V : Type} (t : gmap Z V) (seq : N) (z : Z) :
  int64 (Z.of_N seq) -> ~ int64 z -> t !! z = None ->
  binds_integer t seq z = false.
Proof.
  intros Hs Hz Ht. unfold binds_integer.
  rewrite !bool_decide_false; [done|by rewrite Ht; intros [? ?]|].
  unfold int64 in *. lia.
Qed.

(** A stored value is the value of a float that is not a NaN, and binding
    the float it reads back as gives the stored value again. *)
Lemma of_float_is_Some {real : Type} `{!Real real} (x : float) :
  PrimFloat.is_nan x = false -> exists r, of_float x = Some r /\ to_float r = as_stored x.
Proof.
  intros Hx. destruct (of_float x) as [r|] eqn:E.
  - exists r. split; [done|]. by apply to_of_float.
  - apply of_float_None in E. congruence.
Qed.


(** ** What each function computes *)

Section equations.

Context {real : Type} `{!Real real}.
Implicit Types (s file : db real) (cs : list call).

Lemma add_client_eq (n : string) (e t : option string) s :
  add_client n e t s =
    (Ok (new_rowid (clientes s) (clientes_seq s)),
     Db (<[new_rowid (clientes s) (clientes_seq s) := Cliente n e t]> (clientes s))
        (Z.to_N (new_rowid (clientes s) (clientes_seq s))) (pedidos s) (pedidos_seq s)).
Proof. reflexivity. Qed.

Lemma get_clients_eq s :
  get_clients s = (Ok (cliente_tuple <$> order_by_id (clientes s)), s).
Proof. reflexivity. Qed.

Lemma get_client_by_id_eq (i : Z) s :
  get_client_by_id i s =
    if binds_integer (clientes s) (clientes_seq s) i
    then (Ok ((fun c => (i, nome c, email c, telefone c)) <$> clientes s !! i), s)
    else (Raise too_large, s).
Proof.
  unfold get_client_by_id, exec_select_clientes_by_id, fetchone. simpl.
  destruct (binds_integer _ _ _); [|done]. by destruct (clientes s !! i).
Qed.

Lemma get_client_by_id_snd (i : Z) s : (get_client_by_id i s).2 = s.
Proof. rewrite get_client_by_id_eq. by destruct (binds_integer _ _ _). Qed.

Lemma get_client_by_id_stored (i : Z) (c : cliente) s :
  clientes s !! i = Some c ->
  get_client_by_id i s = (Ok (Some (i, nome c, email c, telefone c)), s).
Proof.
  intros Hc. rewrite get_client_by_id_eq, binds_integer_stored by (by eexists).
  by rewrite Hc.
Qed.

Lemma get_client_by_id_absent (i : Z) s :
  int64 i -> clientes s !! i = None -> get_client_by_id i s = (Ok None, s).
Proof.
  intros Hi Hc. rewrite get_client_by_id_eq, binds_integer_int64 by done.
  by rewrite Hc.
Qed.

Lemma update_client_eq (i : Z) (n : string) (e t : option string) s :
  update_client i n e t s =
    if binds_integer (clientes s) (clientes_seq s) i then
      match clientes s !! i with
      | Some _ =>
          (Ok true,
           Db (<[i := Cliente n e t]> (clientes s)) (clientes_seq s) (pedidos s)
              (pedidos_seq s))
      | None => (Ok false, s)
      end
    else (Raise too_large, s).
Proof.
  unfold update_client, exec_update_clientes. simpl.
  destruct (binds_integer _ _ _); [|done]. by destruct (clientes s !! i).
Qed.

(** [delete_client] runs on a connection without foreign keys: the row of
    clientes goes, and pedidos is what it was. *)
Lemma delete_client_eq (i : Z) s :
  delete_client i s =
    if binds_integer (clientes s) (clientes_seq s) i then
      match clientes s !! i with
      | Some _ =>
          (Ok true,
           Db (delete i (clientes s)) (clientes_seq s) (pedidos s) (pedidos_seq s))
      | None => (Ok false, s)
      end
    else (Raise too_large, s).
Proof.
  unfold delete_client, exec_delete_clientes. simpl.
  destruct (binds_integer _ _ _); [|done]. by destruct (clientes s !! i).
Qed.

Lemma delete_client_pedidos (i : Z) s : pedidos (delete_client i s).2 = pedidos s.
Proof.
  rewrite delete_client_eq. destruct (binds_integer _ _ _); [|done].
  by destruct (clientes s !! i).
Qed.

(** [add_order] runs on a connection without foreign keys: once the
    parameters are bound and [valor] is not [NULL], the row is written
    whatever [cliente_id] is. *)
Lemma add_order_eq (ci : Z) (p : string) (v : float) (d : string) s :
  add_order ci p v d s =
    if binds_integer (clientes s) (clientes_seq s) ci then
      match of_float v with
      | Some r =>
          (Ok (new_rowid (pedidos s) (pedidos_seq s)),
           Db (clientes s) (clientes_seq s)
              (<[new_rowid (pedidos s) (pedidos_seq s) := Pedido ci p r d]> (pedidos s))
              (Z.to_N (new_rowid (pedidos s) (pedidos_seq s))))
      | None => (Raise valor_not_null, s)
      end
    else (Raise too_large, s).
Proof.
  unfold add_order, exec_insert_pedidos. simpl.
  destruct (binds_integer _ _ _); [|done]. by destruct (of_float v).
Qed.

Lemma get_orders_eq s :
  get_orders s = (Ok (pedido_tuple <$> order_by_id (pedidos s)), s).
Proof. reflexivity. Qed.

Lemma get_order_by_id_eq (i : Z) s :
  get_order_by_id i s =
    if binds_integer (pedidos s) (pedidos_seq s) i
    then (Ok ((fun p => (i, cliente_id p, produto p, to_float (valor p), data p))
                <$> pedidos s !! i), s)
    else (Raise too_large, s).
Proof.
  unfold get_order_by_id, exec_select_pedidos_by_id, fetchone. simpl.
  destruct (binds_integer _ _ _); [|done]. by destruct (pedidos s !! i).
Qed.

Lemma get_order_by_id_snd (i : Z) s : (get_order_by_id i s).2 = s.
Proof. rewrite get_order_by_id_eq. by destruct (binds_integer _ _ _). Qed.

Lemma get_order_by_id_stored (i : Z) (o : pedido real) s :
  pedidos s !! i = Some o ->
  get_order_by_id i s =
    (Ok (Some (i, cliente_id o, produto o, to_float (valor o), data o)), s).
Proof.
  intros Ho. rewrite get_order_by_id_eq, binds_integer_stored by (by eexists).
  by rewrite Ho.
Qed.

Lemma get_order_by_id_absent (i : Z) s :
  int64 i -> pedidos s !! i = None -> get_order_by_id i s = (Ok None, s).
Proof.
  intros Hi Ho. rewrite get_order_by_id_eq, binds_integer_int64 by done.
  by rewrite Ho.
Qed.

Lemma update_order_eq (i ci : Z) (p : string) (v : float) (d : string) s :
  update_order i ci p v d s =
    if binds_integer (clientes s) (clientes_seq s) ci && binds_integer (pedidos s) (pedidos_seq s) i then
      match pedidos s !! i with
      | Some _ =>
          match of_float v with
          | Some r =>
              (Ok true,
               Db (clientes s) (clientes_seq s) (<[i := Pedido ci p r d]> (pedidos s))
                  (pedidos_seq s))
          | None => (Raise valor_not_null, s)
          end
      | None => (Ok false, s)
      end
    else (Raise too_large, s).
Proof.
  unfold update_order, exec_update_pedidos. simpl.
  destruct (_ && _); [|done]. destruct (pedidos s !! i); [|done].
  by destruct (of_float v).
Qed.

Lemma delete_order_eq (i : Z) s :
  delete_order i s =
    if binds_integer (pedidos s) (pedidos_seq s) i then
      match pedidos s !! i with
      | Some _ =>
          (Ok true,
           Db (clientes s) (clientes_seq s) (delete i (pedidos s)) (pedidos_seq s))
      | None => (Ok false, s)
      end
    else (Raise too_large, s).
Proof.
  unfold delete_order, exec_delete_pedidos. simpl.
  destruct (binds_integer _ _ _); [|done]. by destruct (pedidos s !! i).
Qed.

Lemma list_orders_with_clients_eq s :
  list_orders_with_clients s = (Ok (order_by_id (pedidos s) ≫= join_clientes s), s).
Proof. reflexivity. Qed.

(** The rows of the join: one for each row of pedidos whose [cliente_id] is
    the id of a row of clientes. *)
Lemma elem_of_join (s : db real) (r : joined_row) :
  r ∈ order_by_id (pedidos s) ≫= join_clientes s <->
  exists (oi : Z) (p : pedido real) (c : cliente),
    pedidos s !! oi = Some p /\ clientes s !! cliente_id p = Some c /\
    r = (oi, produto p, to_float (valor p), data p, cliente_id p,
         nome c, email c, telefone c).
Proof.
  rewrite list_elem_of_bind. split.
  - intros ([oi p] & Hr & Hp). apply elem_of_order_by_id in Hp.
    unfold join_clientes in Hr. apply list_elem_of_bind in Hr as ([ci c] & Hr & Hc).
    apply elem_of_map_to_list in Hc. simpl in Hr.
    case_decide as Heq; [|by apply elem_of_nil in Hr].
    apply list_elem_of_singleton in Hr. subst ci.
    exists oi, p, c. by rewrite Hr.
  - intros (oi & p & c & Hp & Hc & ->).
    exists (oi, p). split; [|by apply elem_of_order_by_id].
    unfold join_clientes. apply list_elem_of_bind.
    exists (cliente_id p, c). split; [|by apply elem_of_map_to_list].
    simpl. rewrite decide_True by done. by apply list_elem_of_singleton.
Qed.

(** What a call that writes leaves of the file, case by case. *)
Lemma update_client_cases (i : Z) (n : string) (e t : option string) s :
  (exists c, clientes s !! i = Some c /\
     update_client i n e t s =
       (Ok true, Db (<[i := Cliente n e t]> (clientes s)) (clientes_seq s)
                    (pedidos s) (pedidos_seq s))) \/
  (clientes s !! i = None /\ (update_client i n e t s).2 = s).
Proof.
  rewrite update_client_eq. destruct (clientes s !! i) as [c|] eqn:Hc.
  - left. exists c. split; [done|].
    by rewrite binds_integer_stored by (by eexists).
  - right. split; [done|]. by destruct (binds_integer _ _ _).
Qed.

Lemma delete_client_cases (i : Z) s :
  (exists c, clientes s !! i = Some c /\
     delete_client i s =
       (Ok true, Db (delete i (clientes s)) (clientes_seq s) (pedidos s)
                    (pedidos_seq s))) \/
  (clientes s !! i = None /\ (delete_client i s).2 = s).
Proof.
  rewrite delete_client_eq. destruct (clientes s !! i) as [c|] eqn:Hc.
  - left. exists c. split; [done|].
    by rewrite binds_integer_stored by (by eexists).
  - right. split; [done|]. by destruct (binds_integer _ _ _).
Qed.

Lemma add_order_cases (ci : Z) (p : string) (v : float) (d : string) s :
  (exists r, of_float v = Some r /\
     add_order ci p v d s =
       (Ok (new_rowid (pedidos s) (pedidos_seq s)),
        Db (clientes s) (clientes_seq s)
           (<[new_rowid (pedidos s) (pedidos_seq s) := Pedido ci p r d]> (pedidos s))
           (Z.to_N (new_rowid (pedidos s) (pedidos_seq s))))) \/
  (exists e, add_order ci p v d s = (Raise e, s)).
Proof.
  rewrite add_order_eq. destruct (binds_integer _ _ _); [|right; by eexists].
  destruct (of_float v) as [r|]; [left; by exists r|right; by eexists].
Qed.

Lemma update_order_cases (i ci : Z) (p : string) (v : float) (d : string) s :
  (exists o r, pedidos s !! i = Some o /\ of_float v = Some r /\
     update_order i ci p v d s =
       (Ok true, Db (clientes s) (clientes_seq s)
                    (<[i := Pedido ci p r d]> (pedidos s)) (pedidos_seq s))) \/
  (update_order i ci p v d s).2 = s.
Proof.
  rewrite update_order_eq. destruct (_ && _); [|by right].
  destruct (pedidos s !! i) as [o|] eqn:Ho; [|by right].
  destruct (of_float v) as [r|]; [|by right].
  left. by exists o, r.
Qed.

Lemma delete_order_cases (i : Z) s :
  (exists o, pedidos s !! i = Some o /\
     delete_order i s =
       (Ok true, Db (clientes s) (clientes_seq s) (delete i (pedidos s))
                    (pedidos_seq s))) \/
  (pedidos s !! i = None /\ (delete_order i s).2 = s).
Proof.
  rewrite delete_order_eq. destruct (pedidos s !! i) as [o|] eqn:Ho.
  - left. exists o. split; [done|].
    by rewrite binds_integer_stored by (by eexists).
  - right. split; [done|]. by destruct (binds_integer _ _ _).
Qed.

End equations.

(** A call leaves the file as it was, or writes one table. *)
Ltac step_cases c s :=
  destruct c as [n e t| |j|j n e t|j|ci p v d| |j|j ci p v d|j| ]; simpl;
  rewrite ?get_client_by_id_snd, ?get_order_by_id_snd;
  [ |
  | | destruct (update_client_cases j n e t s) as [(? & ? & ->)|[? ->]]
  | destruct (delete_client_cases j s) as [(? & ? & ->)|[? ->]]
  | destruct (add_order_cases ci p v d s) as [(? & ? & ->)|[? ->]]
  | | | destruct (update_order_cases j ci p v d s) as [(? & ? & ? & ? & ->)| ->]
  | destruct (delete_order_cases j s) as [(? & ? & ->)|[? ->]]
  | ]; simpl.

(** ** One call *)

Section properties.

Context {real : Type} `{!Real real}.
Implicit Types (s file : db real) (cs : list call).

Lemma step_clientes_seq_mono (c : call) s :
  clientes_seq s <= clientes_seq (step c s).2.
Proof.
  step_cases c s; try lia.
  pose proof (new_rowid_gt_seq (clientes s) (clientes_seq s)). lia.
Qed.

Lemma step_pedidos_seq_mono (c : call) s :
  pedidos_seq s <= pedidos_seq (step c s).2.
Proof.
  step_cases c s; try lia.
  pose proof (new_rowid_gt_seq (pedidos s) (pedidos_seq s)). lia.
Qed.

(** An id that [add_client] returns is above the counter of clientes, and is
    the counter afterwards. *)
Lemma step_client_id_issued (c : call) s (i : Z) :
  client_id_issued (c, (step c s).1) = Some i ->
  clientes_seq s < i /\ Z.of_N (clientes_seq (step c s).2) = i.
Proof.
  destruct c; simpl; try discriminate.
  intros [= <-]. split; [apply new_rowid_gt_seq|apply new_rowid_to_N].
Qed.

Lemma step_order_id_issued (c : call) s (i : Z) :
  order_id_issued (c, (step c s).1) = Some i ->
  pedidos_seq s < i /\ Z.of_N (pedidos_seq (step c s).2) = i.
Proof.
  destruct c as [| | | | |ci p v d| | | | | ]; simpl; try discriminate.
  destruct (add_order_cases ci p v d s) as [(? & _ & ->)|[? ->]];
    simpl; [|discriminate].
  intros [= <-]. split; [apply new_rowid_gt_seq|apply new_rowid_to_N].
Qed.


(** A call that only reads returns the file it was given. *)
Lemma step_query (q : query) s : (step (query_call q) s).2 = s.
Proof.
  destruct q; simpl; by rewrite ?get_client_by_id_snd, ?get_order_by_id_snd.
Qed.

(** ** Sessions *)

Lemma run_cons (c : call) cs s :
  run (c :: cs) s =
    ((c, (step c s).1) :: (run cs (step c s).2).1, (run cs (step c s).2).2).
Proof. reflexivity. Qed.

Lemma client_ids_issued_cons (c : call) cs s :
  client_ids_issued (c :: cs) s =
    option_list (client_id_issued (c, (step c s).1))
      ++ client_ids_issued cs (step c s).2.
Proof.
  unfold client_ids_issued. rewrite run_cons.
  cbn [fst omap list_omap]. by destruct (client_id_issued (c, _)).
Qed.

Lemma order_ids_issued_cons (c : call) cs s :
  order_ids_issued (c :: cs) s =
    option_list (order_id_issued (c, (step c s).1))
      ++ order_ids_issued cs (step c s).2.
Proof.
  unfold order_ids_issued. rewrite run_cons.
  cbn [fst omap list_omap]. by destruct (order_id_issued (c, _)).
Qed.

Lemma run_clientes_seq_mono cs s : clientes_seq s <= clientes_seq (run cs s).2.
Proof.
  revert s. induction cs as [|c cs IH]; intros s; [done|].
  rewrite run_cons. simpl.
  etrans; [apply (step_clientes_seq_mono c)|apply IH].
Qed.

Lemma run_pedidos_seq_mono cs s : pedidos_seq s <= pedidos_seq (run cs s).2.
Proof.
  revert s. induction cs as [|c cs IH]; intros s; [done|].
  rewrite run_cons. simpl.
  etrans; [apply (step_pedidos_seq_mono c)|apply IH].
Qed.

(** The ids issued in a session lie above the counter the session started
    with, and at most at the counter it ends with. *)
Lemma client_ids_issued_bounds cs s :
  Forall (fun i => clientes_seq s < i <= clientes_seq (run cs s).2)
    (client_ids_issued cs s).
Proof.
  revert s. induction cs as [|c cs IH]; intros s; [constructor|].
  rewrite client_ids_issued_cons, run_cons. cbn [snd].
  apply Forall_app. split.
  - destruct (client_id_issued (c, (step c s).1)) as [i|] eqn:E; [|constructor].
    apply step_client_id_issued in E as [Hlt Heq].
    repeat constructor; [done|]. rewrite <- Heq. apply run_clientes_seq_mono.
  - eapply Forall_impl; [apply IH|]. simpl. intros i [Hlt Hle]. split; [|done].
    pose proof (step_clientes_seq_mono c s). lia.
Qed.

Lemma order_ids_issued_bounds cs s :
  Forall (fun i => pedidos_seq s < i <= pedidos_seq (run cs s).2)
    (order_ids_issued cs s).
Proof.
  revert s. induction cs as [|c cs IH]; intros s; [constructor|].
  rewrite order_ids_issued_cons, run_cons. cbn [snd].
  apply Forall_app. split.
  - destruct (order_id_issued (c, (step c s).1)) as [i|] eqn:E; [|constructor].
    apply step_order_id_issued in E as [Hlt Heq].
    repeat constructor; [done|]. rewrite <- Heq. apply run_pedidos_seq_mono.
  - eapply Forall_impl; [apply IH|]. simpl. intros i [Hlt Hle]. split; [|done].
    pose proof (step_pedidos_seq_mono c s). lia.
Qed.

Lemma client_ids_issued_ascending cs s :
  StronglySorted Z.lt (client_ids_issued cs s).
Proof.
  revert s. induction cs as [|c cs IH]; intros s; [constructor|].
  rewrite client_ids_issued_cons.
  destruct (client_id_issued (c, (step c s).1)) as [i|] eqn:E; simpl; [|apply IH].
  apply step_client_id_issued in E as [_ Heq].
  constructor; [apply IH|].
  eapply Forall_impl; [apply client_ids_issued_bounds|]. simpl. lia.
Qed.

Lemma order_ids_issued_ascending cs s :
  StronglySorted Z.lt (order_ids_issued cs s).
Proof.
  revert s. induction cs as [|c cs IH]; intros s; [constructor|].
  rewrite order_ids_issued_cons.
  destruct (order_id_issued (c, (step c s).1)) as [i|] eqn:E; simpl; [|apply IH].
  apply step_order_id_issued in E as [_ Heq].
  constructor; [apply IH|].
  eapply Forall_impl; [apply order_ids_issued_bounds|]. simpl. lia.
Qed.


Lemma run_queries (qs : list query) s :
  run (query_call <$> qs) s =
    ((fun q => (query_call q, (step (query_call q) s).1)) <$> qs, s).
Proof.
  induction qs as [|q qs IH]; [done|].
  rewrite fmap_cons, run_cons, step_query, IH. done.
Qed.

(** An order whose [cliente_id] is the id of no client is in no row of the
    join. *)
Lemma orphan_order_not_joined s (oi : Z) (o : pedido real) (r : joined_row) :
  pedidos s !! oi = Some o -> clientes s !! cliente_id o = None ->
  r ∈ order_by_id (pedidos s) ≫= join_clientes s -> joined_pedido_id r <> oi.
Proof.
  intros Ho Hc Hr. apply elem_of_join in Hr as (oi' & p & c & Hp & Hpc & ->).
  unfold joined_pedido_id. simpl. intros ->.
  rewrite Ho in Hp. injection Hp as ->. by rewrite Hc in Hpc.
Qed.

(** ** The foreign key, in a session that enables it *)

(** With foreign keys on, deleting a client leaves no order that references
    it: the cascade of the schema. *)
Lemma exec_delete_clientes_cascade (i : Z) s :
  is_Some (clientes s !! i) ->
  exists cur d,
    exec_delete_clientes i (Connection true s) = Ok (cur, Connection true d) /\
    clientes d !! i = None /\
    forall oi o, pedidos d !! oi = Some o -> cliente_id o <> i.
Proof.
  intros [c Hc]. unfold exec_delete_clientes. simpl.
  rewrite binds_integer_stored by (by eexists). rewrite Hc.
  eexists _, _. split; [done|]. simpl. split; [apply lookup_delete_eq|].
  intros oi o Ho. by apply map_lookup_filter_Some in Ho as [_ Ho].
Qed.

(** With foreign keys on, an order for a client that does not exist is
    refused. *)
Lemma exec_insert_pedidos_foreign_key (ci : Z) (p : string) (v : float)
    (d : string) s :
  int64 ci -> PrimFloat.is_nan v = false -> clientes s !! ci = None ->
  exec_insert_pedidos ci p v d (Connection true s) =
    Raise (IntegrityError "FOREIGN KEY constraint failed").
Proof.
  intros Hi Hv Hc. unfold exec_insert_pedidos, foreign_key_ok. simpl.
  rewrite binds_integer_int64 by done.
  destruct (of_float_is_Some v Hv) as (r & -> & _).
  rewrite Hc. by rewrite bool_decide_false by (by intros [? ?]).
Qed.
(** ** The properties of the specification *)



(** C5.  Every row that [list_orders_with_clients] returns carries the
    fields of a stored client whose id is the [cliente_id] of the row's order;
    an order whose [cliente_id] is the id of no client is in no row. *)
Theorem list_orders_with_clients_live_client (s : db real) :
  exists rows : list joined_row,
    list_orders_with_clients s = (Ok rows, s) /\
    (forall (oi : Z) (p : string) (v : float) (d : string) (ci : Z) (n : string)
            (e t : option string),
       (oi, p, v, d, ci, n, e, t) ∈ rows ->
       clientes s !! ci = Some (Cliente n e t) /\
       exists r : real,
         pedidos s !! oi = Some (Pedido ci p r d) /\ to_float r = v) /\
    (forall (oi : Z) (o : pedido real),
       pedidos s !! oi = Some o -> clientes s !! cliente_id o = None ->
       forall r, r ∈ rows -> joined_pedido_id r <> oi).
Proof.
  rewrite list_orders_with_clients_eq. eexists. split; [done|]. split.
  - intros oi p v d ci n e t Hr.
    apply elem_of_join in Hr as (oi' & o & c & Ho & Hc & [= -> -> -> -> -> -> -> ->]).
    split; [by destruct c|]. exists (valor o). by destruct o.
  - intros oi o Ho Hc r Hr. by eapply orphan_order_not_joined.
Qed.

(** C6.  In any session, on any file, the ids that [add_client] returns are
    strictly ascending in the order of the calls, and so are the ids that
    [add_order] returns, whatever is deleted in between: each id is greater
    than every id issued before it for its table, and none is reused. *)
Theorem issued_ids_ascending cs (s : db real) :
  StronglySorted Z.lt (client_ids_issued cs s) /\
  StronglySorted Z.lt (order_ids_issued cs s).
Proof.
  split; [apply client_ids_issued_ascending|apply order_ids_issued_ascending].
Qed.


(** C8.  [get_clients] returns exactly the stored clients, by strictly
    ascending id, and [get_orders] returns exactly the stored orders, by
    strictly ascending id. *)
Theorem get_clients_get_orders_ascending (s : db real) :
  (exists rows : list cliente_row,
     get_clients s = (Ok rows, s) /\
     StronglySorted Z.lt (cliente_row_id <$> rows) /\
     forall (i : Z) (n : string) (e t : option string),
       (i, n, e, t) ∈ rows <-> clientes s !! i = Some (Cliente n e t)) /\
  (exists rows : list pedido_row,
     get_orders s = (Ok rows, s) /\
     StronglySorted Z.lt (pedido_row_id <$> rows) /\
     forall (i ci : Z) (p : string) (v : float) (d : string),
       (i, ci, p, v, d) ∈ rows <->
       exists r : real, pedidos s !! i = Some (Pedido ci p r d) /\ to_float r = v).
Proof.
  split.
  - rewrite get_clients_eq. eexists. split; [done|]. split.
    + rewrite <- list_fmap_compose.
      replace (cliente_row_id ∘ cliente_tuple) with (@fst Z cliente) by done.
      apply order_by_id_ascending.
    + intros i n e t. rewrite list_elem_of_fmap. split.
      * intros ([i' c] & [= -> -> -> ->] & Hc).
        apply elem_of_order_by_id in Hc. by destruct c.
      * intros Hc. exists (i, Cliente n e t). split; [done|].
        by apply elem_of_order_by_id.
  - rewrite get_orders_eq. eexists. split; [done|]. split.
    + rewrite <- list_fmap_compose.
      replace (pedido_row_id ∘ pedido_tuple) with (@fst Z (pedido real)) by done.
      apply order_by_id_ascending.
    + intros i ci p v d. rewrite list_elem_of_fmap. split.
      * intros ([i' o] & [= -> -> -> -> ->] & Ho).
        apply elem_of_order_by_id in Ho. exists (valor o). by destruct o.
      * intros (r & Ho & <-). exists (i, Pedido ci p r d). split; [done|].
        by apply elem_of_order_by_id.
Qed.


(** C10.  Each of the five reading functions returns the file it was given,
    both tables unchanged; a sequence of reads leaves the file as it was, and
    each read in it returns what it returns on that file. *)
Theorem reads_leave_file_unchanged (s : db real) :
  (get_clients s).2 = s /\
  (forall i, (get_client_by_id i s).2 = s) /\
  (get_orders s).2 = s /\
  (forall i, (get_order_by_id i s).2 = s) /\
  (list_orders_with_clients s).2 = s /\
  forall qs : list query,
    run (query_call <$> qs) s =
      ((fun q => (query_call q, (step (query_call q) s).1)) <$> qs, s).
Proof.
  split; [done|]. split; [intros i; apply get_client_by_id_snd|].
  split; [done|]. split; [intros i; apply get_order_by_id_snd|].
  split; [done|]. intros qs. apply run_queries.
Qed.

End properties.

(** ** The properties on concrete sessions *)

Lemma init_db_idempotent (file : option (db stored_float)) :
  init_db (Some (init_db file)) = init_db file.
Proof. reflexivity. Qed.

(** The session of the specification: Ana, her order, and the joined
    listing with the eight fields. *)
Example ana_joined :
  (list_orders_with_clients ana_file).1 =
    Ok [(1, "Widget", 9.99%float, "2024-01-01", 1, "Ana", Some "a@x.com", Some "111")].
Proof. vm_compute. reflexivity. Qed.

(** Clients C1, C2, C3, then C2 deleted and C4 added: the ids issued are
    1, 2, 3, 4 and the listing is C1, C3, C4. *)
Example four_clients_listing :
  client_ids_issued four_clients_session new_file = [1; 2; 3; 4] /\
  (get_clients (run four_clients_session new_file).2).1 =
    Ok [(1, "C1", None, None); (3, "C3", None, None); (4, "C4", None, None)].
Proof. split; vm_compute; reflexivity. Qed.

(** The id of a deleted client is not given again, also when it was the
    largest. *)
Example readd_ids :
  client_ids_issued readd_session new_file = [1; 2] /\
  (get_clients (run readd_session new_file).2).1 = Ok [(2, "C2", None, None)].
Proof. split; vm_compute; reflexivity. Qed.

(** C1.  With one client and one order that references it,
    [delete_client] returns [True] and the client is gone, and [get_orders]
    still returns the order: the connection of [get_conn] never turns foreign
    keys on, so the cascade of the schema does not run. *)
Lemma delete_client_keeps_orders :
  exists s' : db stored_float,
    delete_client 1 ana_file = (Ok true, s') /\
    get_client_by_id 1 s' = (Ok None, s') /\
    get_orders s' = (Ok [(1, 1, "Widget", 9.99%float, "2024-01-01")], s').
Proof.
  eexists. split; [vm_compute; reflexivity|].
  split; vm_compute; reflexivity.
Qed.

(** The same statement on a connection with foreign keys on: no order is
    left. *)
Example delete_client_cascade_with_foreign_keys :
  exists cur d,
    exec_delete_clientes 1 (Connection true ana_file) = Ok (cur, Connection true d) /\
    pedidos d = ∅.
Proof. eexists _, _. split; vm_compute; reflexivity. Qed.

(** C2.  On a new file, where no client exists, [add_order] for client 42
    returns the id 1 and the order is stored; [update_order] that moves
    Ana's order to client 42 returns [True] and the order is stored with
    [cliente_id] 42.  Neither write is refused. *)
Lemma add_order_unknown_client_written :
  (exists s' : db stored_float,
     add_order 42 "Widget" 9.99%float "2024-01-01" new_file = (Ok 1, s') /\
     get_client_by_id 42 s' = (Ok None, s') /\
     get_orders s' = (Ok [(1, 42, "Widget", 9.99%float, "2024-01-01")], s')) /\
  (exists s' : db stored_float,
     update_order 1 42 "Widget" 9.99%float "2024-01-01" ana_file = (Ok true, s') /\
     get_client_by_id 42 s' = (Ok None, s') /\
     get_orders s' = (Ok [(1, 42, "Widget", 9.99%float, "2024-01-01")], s')).
Proof.
  split; (eexists; split; [vm_compute; reflexivity|]);
    split; vm_compute; reflexivity.
Qed.



(** C5 on Ana's file: the one row of the listing, and its client. *)
Lemma list_orders_with_clients_live_client_witness :
  exists rows : list (joined_row),
    list_orders_with_clients ana_file = (Ok rows, ana_file) /\
    (1, "Widget", 9.99%float, "2024-01-01", 1, "Ana", Some "a@x.com", Some "111") ∈ rows /\
    (clientes ana_file !! 1) = Some (Cliente "Ana" (Some "a@x.com") (Some "111")).
Proof.
  destruct (list_orders_with_clients_live_client ana_file)
    as (rows & Hrows & Hlive & _).
  exists rows. split; [exact Hrows|].
  assert (Hin : (1, "Widget", 9.99%float, "2024-01-01", 1, "Ana", Some "a@x.com",
                 Some "111") ∈ rows).
  { assert (Hr : rows = [(1, "Widget", 9.99%float, "2024-01-01", 1, "Ana",
                          Some "a@x.com", Some "111")]).
    { assert (H1 : (list_orders_with_clients ana_file).1 = Ok rows)
        by (by rewrite Hrows).
      rewrite ana_joined in H1. by injection H1. }
    rewrite Hr. apply list_elem_of_here. }
  split; [exact Hin|]. apply (Hlive _ _ _ _ _ _ _ _ Hin).
Defined.



(** The negative zero is read back as the positive zero. *)
Example add_order_negative_zero :
  exists s' : db stored_float,
    add_order 1 "Widget" (-0)%float "2024-01-01" ana_file = (Ok 2, s') /\
    get_order_by_id 2 s' = (Ok (Some (2, 1, "Widget", 0%float, "2024-01-01")), s').
Proof. eexists. split; vm_compute; reflexivity. Qed.


(** ** More about [ORDER BY id] *)

Lemma order_by_id_Permutation {V : Type} (t : gmap Z V) :
  order_by_id t ≡ₚ map_to_list t.
Proof. apply merge_sort_Permutation. Qed.

Lemma order_by_id_NoDup {V : Type} (t : gmap Z V) : NoDup (order_by_id t).
Proof. rewrite order_by_id_Permutation. apply NoDup_map_to_list. Qed.

Lemma StronglySorted_rowid_lt {V : Type} (l : list (Z * V)) :
  StronglySorted Z.lt l.*1 <-> StronglySorted (fun a b => a.1 < b.1) l.
Proof.
  induction l as [|x l IH]; simpl.
  - split; constructor.
  - split; intros H; apply StronglySorted_inv in H as [Hl Hx]; constructor.
    + by apply IH.
    + by rewrite Forall_fmap in Hx.
    + by apply IH.
    + by rewrite Forall_fmap.
Qed.

(** A list of rows by strictly ascending id that holds the rows of a table is
    the listing of the table. *)
Lemma order_by_id_unique {V : Type} (t : gmap Z V) (l : list (Z * V)) :
  StronglySorted Z.lt l.*1 -> l ≡ₚ map_to_list t -> l = order_by_id t.
Proof.
  intros Hl Hp.
  apply (StronglySorted_unique_strong (fun a b : Z * V => a.1 < b.1)).
  - intros x1 x2 _ _ H1 H2. lia.
  - by apply StronglySorted_rowid_lt.
  - apply StronglySorted_rowid_lt, order_by_id_ascending.
  - by rewrite order_by_id_Permutation.
Qed.

Lemma order_by_id_empty {V : Type} : order_by_id (∅ : gmap Z V) = [].
Proof.
  symmetry. apply order_by_id_unique; [constructor|].
  by rewrite map_to_list_empty.
Qed.

(** A row inserted under an id above all ids of the table is listed last. *)
Lemma order_by_id_insert_last {V : Type} (t : gmap Z V) (i : Z) (v : V) :
  (forall k x, t !! k = Some x -> k < i) ->
  order_by_id (<[i := v]> t) = order_by_id t ++ [(i, v)].
Proof.
  intros Hi. symmetry. apply order_by_id_unique.
  - rewrite fmap_app. apply StronglySorted_app. split.
    + intros k j Hk Hj. apply list_elem_of_singleton in Hj as ->.
      apply list_elem_of_fmap in Hk as ([k' x] & -> & Hk).
      apply elem_of_order_by_id in Hk. by eapply Hi.
    + split; [apply order_by_id_ascending|repeat constructor].
  - rewrite map_to_list_insert.
    + rewrite order_by_id_Permutation. symmetry. apply Permutation_cons_append.
    + destruct (t !! i) as [x|] eqn:E; [|done]. apply Hi in E. lia.
Qed.

(** The listing after a row is deleted: the listing without that row. *)
Lemma order_by_id_delete {V : Type} (t : gmap Z V) (i : Z) :
  order_by_id (delete i t) = filter (fun r => r.1 <> i) (order_by_id t).
Proof.
  symmetry. apply order_by_id_unique.
  - apply StronglySorted_rowid_lt.
    pose proof (order_by_id_ascending t) as Hs.
    apply StronglySorted_rowid_lt in Hs.
    induction Hs as [|x l Hl IH Hx]; [constructor|].
    rewrite filter_cons. case_decide; [|done].
    constructor; [done|].
    apply Forall_forall. intros y Hy. apply list_elem_of_filter in Hy as [_ Hy].
    rewrite Forall_forall in Hx. by apply Hx.
  - apply NoDup_Permutation.
    + apply NoDup_filter, order_by_id_NoDup.
    + apply NoDup_map_to_list.
    + intros [k x]. rewrite list_elem_of_filter, elem_of_order_by_id,
        elem_of_map_to_list, lookup_delete_Some. simpl.
      split; intros [? ?]; split; (done || congruence).
Qed.


(** In a list that holds each row of a table once, the rows with a given
    id: the row of the table, if any. *)
Lemma rows_filter_id {V : Type} (t : gmap Z V) (l : list (Z * V)) (i : Z) :
  NoDup l -> (forall k v, (k, v) ∈ l <-> t !! k = Some v) ->
  filter (fun r => r.1 = i) l =
    match t !! i with Some v => [(i, v)] | None => [] end.
Proof.
  intros Hnd Hel. destruct (t !! i) as [v|] eqn:E.
  - apply Permutation_singleton_r. apply NoDup_Permutation.
    + by apply NoDup_filter.
    + apply NoDup_singleton.
    + intros [k x]. rewrite list_elem_of_filter, Hel, list_elem_of_singleton.
      simpl. split.
      * intros [-> Hx]. congruence.
      * intros [= -> ->]. done.
  - apply elem_of_nil_inv. intros [k x].
    rewrite list_elem_of_filter, Hel. simpl. intros [-> Hx]. congruence.
Qed.

Lemma order_by_id_filter_id {V : Type} (t : gmap Z V) (i : Z) :
  filter (fun r => r.1 = i) (order_by_id t) =
    match t !! i with Some v => [(i, v)] | None => [] end.
Proof.
  apply rows_filter_id; [apply order_by_id_NoDup|apply elem_of_order_by_id].
Qed.

Lemma map_to_list_filter_id {V : Type} (t : gmap Z V) (i : Z) :
  filter (fun r => r.1 = i) (map_to_list t) =
    match t !! i with Some v => [(i, v)] | None => [] end.
Proof.
  apply rows_filter_id; [apply NoDup_map_to_list|].
  intros k v. apply elem_of_map_to_list.
Qed.

Lemma bind_if_filter {A B : Type} (P : A -> Prop) `{!forall x, Decision (P x)}
    (f : A -> B) (l : list A) :
  l ≫= (fun x => if decide (P x) then [f x] else []) = f <$> filter P l.
Proof.
  induction l as [|x l IH]; [done|].
  rewrite bind_cons, filter_cons, IH. by case_decide.
Qed.

(** A list by ascending key, with some elements left out and the others
    replaced by elements of the same key, is by ascending key. *)
Lemma StronglySorted_omap {A B : Type} (ka : A -> Z) (kb : B -> Z)
    (g : A -> option B) (l : list A) :
  (forall a b, g a = Some b -> kb b = ka a) ->
  StronglySorted Z.lt (ka <$> l) -> StronglySorted Z.lt (kb <$> omap g l).
Proof.
  intros Hg. induction l as [|a l IH]; simpl; [constructor|].
  intros Hs. apply StronglySorted_inv in Hs as [Hl Ha].
  destruct (g a) as [b|] eqn:E; simpl; [|by apply IH].
  constructor; [by apply IH|].
  rewrite (Hg a b E). apply Forall_forall. intros k Hk.
  apply list_elem_of_fmap in Hk as (b' & -> & Hb').
  apply list_elem_of_omap in Hb' as (a' & Ha' & Ega').
  rewrite (Hg a' b' Ega'). rewrite Forall_forall in Ha. apply Ha.
  apply list_elem_of_fmap. by exists a'.
Qed.






(** ** Further properties of the data-access functions *)

Section more_properties.

Context {real : Type} `{!Real real}.
Implicit Types (s : db real) (cs : list call).

Lemma cliente_tuple_filter (P : Z -> Prop) `{!forall k, Decision (P k)}
    (l : list (Z * cliente)) :
  cliente_tuple <$> filter (fun r => P r.1) l =
    filter (fun r => P (cliente_row_id r)) (cliente_tuple <$> l).
Proof.
  induction l as [|x l IH]; [done|].
  rewrite fmap_cons, !filter_cons. simpl.
  change (cliente_row_id (cliente_tuple x)) with x.1.
  case_decide; by rewrite ?fmap_cons, IH.
Qed.

Lemma pedido_tuple_filter (P : Z -> Prop) `{!forall k, Decision (P k)}
    (l : list (Z * pedido real)) :
  pedido_tuple <$> filter (fun r => P r.1) l =
    filter (fun r => P (pedido_row_id r)) (pedido_tuple <$> l).
Proof.
  induction l as [|x l IH]; [done|].
  rewrite fmap_cons, !filter_cons. simpl.
  change (pedido_row_id (pedido_tuple x)) with x.1.
  case_decide; by rewrite ?fmap_cons, IH.
Qed.

Lemma cliente_rows_delete (t : gmap Z cliente) (i : Z) :
  cliente_tuple <$> order_by_id (delete i t) =
    filter (fun r => cliente_row_id r <> i) (cliente_tuple <$> order_by_id t).
Proof.
  rewrite order_by_id_delete.
  exact (cliente_tuple_filter (fun k => k <> i) (order_by_id t)).
Qed.

Lemma pedido_rows_delete (t : gmap Z (pedido real)) (i : Z) :
  pedido_tuple <$> order_by_id (delete i t) =
    filter (fun r => pedido_row_id r <> i) (pedido_tuple <$> order_by_id t).
Proof.
  rewrite order_by_id_delete.
  exact (pedido_tuple_filter (fun k => k <> i) (order_by_id t)).
Qed.



(** X3.  [delete_client] on an id within the 64-bit range returns [True]
    exactly when a client has the id.  The listing of [get_clients] loses the
    row with that id and nothing else, the result of [get_orders] is what it
    was, also for the orders of that client, and for an id that no client has
    the file is unchanged.  On an id outside the range [delete_client] raises
    [OverflowError] and the file is as it was. *)
Theorem delete_client_effect s (i : Z) :
  (int64 i \/ is_Some (clientes s !! i) ->
   exists (s' : db real) (rows : list cliente_row),
     delete_client i s = (Ok (bool_decide (is_Some (clientes s !! i))), s') /\
     get_clients s = (Ok rows, s) /\
     get_clients s' = (Ok (filter (fun r => cliente_row_id r <> i) rows), s') /\
     (get_orders s').1 = (get_orders s).1 /\
     (clientes s !! i = None -> s' = s)) /\
  (~ int64 i -> int64 (clientes_seq s) -> clientes s !! i = None ->
   delete_client i s = (Raise too_large, s)).
Proof.
  rewrite delete_client_eq, get_clients_eq. split.
  - intros Hb.
    assert (binds_integer (clientes s) (clientes_seq s) i = true) as ->.
    { destruct Hb; [by apply binds_integer_int64|by apply binds_integer_stored]. }
    destruct (clientes s !! i) as [c|] eqn:E.
    + eexists _, _. split; [by rewrite bool_decide_true by by eexists|].
      split; [done|]. rewrite get_clients_eq. simpl.
      by rewrite cliente_rows_delete.
    + eexists _, _. split; [by rewrite bool_decide_false by by intros [? ?]|].
      split; [done|]. rewrite get_clients_eq. split; [|done].
      by rewrite <- cliente_rows_delete, delete_id.
  - intros Hr Hs Hc. by rewrite binds_integer_false.
Qed.

(** X4.  [delete_order] on an id within the 64-bit range returns [True]
    exactly when an order has the id.  The listing of [get_orders] loses the
    row with that id and nothing else, the result of [get_clients] is what it
    was, and for an id that no order has the file is unchanged.  On an id
    outside the range [delete_order] raises [OverflowError] and the file is as
    it was. *)
Theorem delete_order_effect s (i : Z) :
  (int64 i \/ is_Some (pedidos s !! i) ->
   exists (s' : db real) (rows : list pedido_row),
     delete_order i s = (Ok (bool_decide (is_Some (pedidos s !! i))), s') /\
     get_orders s = (Ok rows, s) /\
     get_orders s' = (Ok (filter (fun r => pedido_row_id r <> i) rows), s') /\
     (get_clients s').1 = (get_clients s).1 /\
     (pedidos s !! i = None -> s' = s)) /\
  (~ int64 i -> int64 (pedidos_seq s) -> pedidos s !! i = None ->
   delete_order i s = (Raise too_large, s)).
Proof.
  rewrite delete_order_eq, get_orders_eq. split.
  - intros Hb.
    assert (binds_integer (pedidos s) (pedidos_seq s) i = true) as ->.
    { destruct Hb; [by apply binds_integer_int64|by apply binds_integer_stored]. }
    destruct (pedidos s !! i) as [c|] eqn:E.
    + eexists _, _. split; [by rewrite bool_decide_true by by eexists|].
      split; [done|]. rewrite get_orders_eq. simpl.
      by rewrite pedido_rows_delete.
    + eexists _, _. split; [by rewrite bool_decide_false by by intros [? ?]|].
      split; [done|]. rewrite get_orders_eq. split; [|done].
      by rewrite <- pedido_rows_delete, delete_id.
  - intros Hr Hs Hc. by rewrite binds_integer_false.
Qed.


Lemma pedido_rows_no_id (t : gmap Z (pedido real)) (i ci : Z) (p : string)
    (v : float) (d : string) :
  t !! i = None ->
  replace_pedido_row i ci p v d <$> (pedido_tuple <$> order_by_id t) =
    pedido_tuple <$> order_by_id t.
Proof.
  intros Hi. rewrite <- (list_fmap_id (pedido_tuple <$> order_by_id t)) at 2.
  apply list_fmap_ext. intros j r Hr. apply list_elem_of_lookup_2 in Hr.
  apply list_elem_of_fmap in Hr as ([k c] & -> & Hk).
  apply elem_of_order_by_id in Hk. unfold replace_pedido_row.
  rewrite decide_False; [done|].
  unfold cliente_row_id, pedido_row_id. simpl. intros Hk'. subst. congruence.
Qed.





Lemma cliente_rows_filter_id (t : gmap Z cliente) (i : Z) :
  filter (fun r => cliente_row_id r = i) (cliente_tuple <$> order_by_id t) =
    match t !! i with Some c => [cliente_tuple (i, c)] | None => [] end.
Proof.
  etrans; [symmetry; exact (cliente_tuple_filter (fun k => k = i) (order_by_id t))|].
  cbv beta. rewrite order_by_id_filter_id. by destruct (t !! i).
Qed.

Lemma pedido_rows_filter_id (t : gmap Z (pedido real)) (i : Z) :
  filter (fun r => pedido_row_id r = i) (pedido_tuple <$> order_by_id t) =
    match t !! i with Some c => [pedido_tuple (i, c)] | None => [] end.
Proof.
  etrans; [symmetry; exact (pedido_tuple_filter (fun k => k = i) (order_by_id t))|].
  cbv beta. rewrite order_by_id_filter_id. by destruct (t !! i).
Qed.

(** X7.  On an id within the 64-bit range [get_client_by_id] returns the
    row of the listing of [get_clients] that has the id, and [None] when the
    listing has none; the listing has at most one such row.  The same holds of
    [get_order_by_id] and [get_orders].  On an id outside the range both raise
    [OverflowError]. *)
Theorem get_by_id_agrees_with_listing s (i : Z) :
  (exists rows : list cliente_row,
     get_clients s = (Ok rows, s) /\
     (int64 i \/ is_Some (clientes s !! i) ->
      get_client_by_id i s =
        (Ok (head (filter (fun r => cliente_row_id r = i) rows)), s)) /\
     (length (filter (fun r => cliente_row_id r = i) rows) <= 1)%nat) /\
  (exists rows : list pedido_row,
     get_orders s = (Ok rows, s) /\
     (int64 i \/ is_Some (pedidos s !! i) ->
      get_order_by_id i s =
        (Ok (head (filter (fun r => pedido_row_id r = i) rows)), s)) /\
     (length (filter (fun r => pedido_row_id r = i) rows) <= 1)%nat) /\
  (~ int64 i -> int64 (clientes_seq s) -> clientes s !! i = None ->
   get_client_by_id i s = (Raise too_large, s)) /\
  (~ int64 i -> int64 (pedidos_seq s) -> pedidos s !! i = None ->
   get_order_by_id i s = (Raise too_large, s)).
Proof.
  split_and!.
  - eexists. split; [apply get_clients_eq|].
    rewrite get_client_by_id_eq, cliente_rows_filter_id. split.
    + intros Hb.
      assert (binds_integer (clientes s) (clientes_seq s) i = true) as ->.
      { destruct Hb; [by apply binds_integer_int64|by apply binds_integer_stored]. }
      by destruct (clientes s !! i).
    + destruct (clientes s !! i); simpl; lia.
  - eexists. split; [apply get_orders_eq|].
    rewrite get_order_by_id_eq, pedido_rows_filter_id. split.
    + intros Hb.
      assert (binds_integer (pedidos s) (pedidos_seq s) i = true) as ->.
      { destruct Hb; [by apply binds_integer_int64|by apply binds_integer_stored]. }
      by destruct (pedidos s !! i).
    + destruct (pedidos s !! i); simpl; lia.
  - intros Hr Hs Hc. by rewrite get_client_by_id_eq, binds_integer_false.
  - intros Hr Hs Hc. by rewrite get_order_by_id_eq, binds_integer_false.
Qed.

(** The rows that join an order: the one row with its client, if the client
    exists. *)
Lemma join_clientes_lookup s (p : Z * pedido real) :
  join_clientes s p =
    match clientes s !! cliente_id p.2 with
    | Some c =>
        [(p.1, produto p.2, to_float (valor p.2), data p.2, cliente_id p.2,
          nome c, email c, telefone c)]
    | None => []
    end.
Proof.
  unfold join_clientes.
  rewrite (bind_if_filter (fun c : Z * cliente => cliente_id p.2 = c.1)
             (fun c => (p.1, produto p.2, to_float (valor p.2), data p.2, c.1,
                        nome c.2, email c.2, telefone c.2))).
  rewrite (list_filter_iff _ (fun r : Z * cliente => r.1 = cliente_id p.2))
    by (intros ?; split; congruence).
  rewrite map_to_list_filter_id. by destruct (clientes s !! cliente_id p.2).
Qed.

(** The joined listing is the listing of the orders, each with its client,
    without the orders that have none. *)
Lemma join_omap s :
  order_by_id (pedidos s) ≫= join_clientes s =
    omap (joined_with s) (pedido_tuple <$> order_by_id (pedidos s)).
Proof.
  induction (order_by_id (pedidos s)) as [|p l IH]; [done|].
  rewrite bind_cons, fmap_cons, IH, join_clientes_lookup. simpl.
  unfold joined_with at 2. rewrite get_client_by_id_eq.
  unfold pedido_row_cliente_id, pedido_tuple. simpl.
  destruct (clientes s !! cliente_id p.2) as [c|] eqn:Hc.
  - by rewrite binds_integer_stored by (by eexists).
  - by destruct (binds_integer _ _ _).
Qed.

Lemma joined_with_id s (o : pedido_row) (r : joined_row) :
  joined_with s o = Some r -> joined_pedido_id r = pedido_row_id o.
Proof.
  unfold joined_with. rewrite get_client_by_id_eq.
  destruct (binds_integer _ _ _); simpl; [|done].
  destruct (clientes s !! pedido_row_cliente_id o); simpl; [|done].
  intros [= <-]. by destruct o as [[[[oi ci] p] v] d].
Qed.

Lemma pedido_rows_ascending s :
  StronglySorted Z.lt (pedido_row_id <$> (pedido_tuple <$> order_by_id (pedidos s))).
Proof.
  rewrite <- list_fmap_compose.
  replace (pedido_row_id ∘ pedido_tuple) with (@fst Z (pedido real)) by done.
  apply order_by_id_ascending.
Qed.

(** X8.  [list_orders_with_clients] returns the rows of [get_orders], in
    their order, each joined with the client that [get_client_by_id] returns
    for its [cliente_id]; the orders for which it returns [None] are left
    out.  The order ids of the joined rows are strictly ascending. *)
Theorem list_orders_with_clients_is_join s :
  exists orders : list pedido_row,
    get_orders s = (Ok orders, s) /\
    list_orders_with_clients s = (Ok (omap (joined_with s) orders), s) /\
    StronglySorted Z.lt (joined_pedido_id <$> omap (joined_with s) orders).
Proof.
  eexists. split; [apply get_orders_eq|].
  rewrite list_orders_with_clients_eq, join_omap. split; [done|].
  apply (StronglySorted_omap pedido_row_id); [apply joined_with_id|].
  apply pedido_rows_ascending.
Qed.

(** X9.  When every stored order references a client that exists,
    [list_orders_with_clients] has one row for each row of [get_orders], in
    the same order: no order is missing from the joined listing. *)
Theorem list_orders_with_clients_total s :
  referential_integrity s ->
  exists (orders : list pedido_row) (joined : list joined_row),
    get_orders s = (Ok orders, s) /\
    list_orders_with_clients s = (Ok joined, s) /\
    joined_pedido_id <$> joined = pedido_row_id <$> orders.
Proof.
  intros Hri. eexists _, _. split; [apply get_orders_eq|].
  rewrite list_orders_with_clients_eq, join_omap. split; [done|].
  assert (Hall : forall p, p ∈ order_by_id (pedidos s) ->
                   is_Some (clientes s !! cliente_id p.2)).
  { intros [oi o] Hp. apply elem_of_order_by_id in Hp. by eapply Hri. }
  induction (order_by_id (pedidos s)) as [|p l IH]; [done|].
  rewrite fmap_cons. simpl.
  destruct (Hall p) as [c Hc]; [left|].
  unfold joined_with at 1.
  unfold pedido_row_cliente_id, pedido_tuple at 1. simpl.
  rewrite (get_client_by_id_stored _ c) by done. simpl.
  f_equal. apply IH. intros q Hq. apply Hall. by right.
Qed.
(** ** Ids on a file that only the program wrote *)









(** ** Calls that respect the foreign key *)

Lemma new_file_integrity : referential_integrity (init_db (real := real) None).
Proof. intros oi o Ho. simpl in Ho. by rewrite lookup_empty in Ho. Qed.

Lemma step_referential_integrity (c : call) s :
  referential_integrity s -> respects_foreign_key c s ->
  referential_integrity (step c s).2.
Proof.
  intros Hri Hc. step_cases c s; simpl in *; try done.
  - intros oi o Ho. simpl. destruct (Hri oi o Ho) as [x Hx].
    rewrite lookup_insert. case_decide; by eexists.
  - intros oi o Ho. simpl in *. destruct (Hri oi o Ho) as [x' Hx].
    rewrite lookup_insert. case_decide; by eexists.
  - intros oi o Ho. simpl in *. rewrite lookup_delete_ne; [by eapply Hri|].
    intros Heq. by eapply Hc.
  - intros oi o Ho. simpl in *. apply lookup_insert_Some in Ho as [[_ <-]|[_ Ho]].
    + done.
    + by eapply Hri.
  - intros oi o Ho. simpl in *. apply lookup_insert_Some in Ho as [[_ <-]|[_ Ho]].
    + done.
    + by eapply Hri.
  - intros oi o Ho. simpl in *. apply lookup_delete_Some in Ho as [_ Ho].
    by eapply Hri.
Qed.

(** X11.  A session in which every order is written for a client that
    exists at that moment, and no client is deleted while an order references
    it, keeps every stored order on a client that exists. *)
Theorem run_referential_integrity cs s :
  referential_integrity s -> respects_along cs s ->
  referential_integrity (run cs s).2.
Proof.
  revert s. induction cs as [|c cs IH]; intros s Hri Hcs; [done|].
  destruct Hcs as [Hc Hcs]. rewrite run_cons. simpl.
  apply IH; [|done]. by apply step_referential_integrity.
Qed.

End more_properties.

(** ** Reasoning about the terminal *)

Section shell_properties.

Context {real : Type} `{!Real real} (py : builtins).
Implicit Types (w : world real) (s : db real).

Lemma sat_ret {A : Type} (a : A) w (Q : outcome A -> world real -> Prop) :
  Q (Returns a) w -> sat (mret a) w Q.
Proof. done. Qed.

Lemma sat_bind {A B : Type} (m : sh real A) (k : A -> sh real B) w
    (Q : outcome B -> world real -> Prop) :
  sat m w (fun o w' =>
    match o with
    | Returns a => sat (k a) w' Q
    | Raises e => Q (Raises e) w'
    | Diverges => Q Diverges w'
    end) ->
  sat (m ≫= k) w Q.
Proof.
  unfold sat, mbind, sh_mbind, sh_bind.
  destruct (m w) as [[a|e|] w']; simpl; done.
Qed.

Lemma sat_fmap {A B : Type} (f : A -> B) (m : sh real A) w
    (Q : outcome B -> world real -> Prop) :
  sat m w (fun o w' =>
    match o with
    | Returns a => Q (Returns (f a)) w'
    | Raises e => Q (Raises e) w'
    | Diverges => Q Diverges w'
    end) ->
  sat (f <$> m) w Q.
Proof.
  unfold sat, fmap, sh_fmap, sh_bind, sh_ret.
  destruct (m w) as [[a|e|] w']; simpl; done.
Qed.

Lemma sat_print (s : string) w (Q : outcome () -> world real -> Prop) :
  Q (Returns ()) (World (stdin w) (stdout w ++ [Line s]) (file w)) ->
  sat (print s) w Q.
Proof. done. Qed.

Lemma sat_input (prompt : string) w (Q : outcome string -> world real -> Prop) :
  (stdin w = [] ->
   Q (Raises EOFError) (World [] (stdout w ++ [Prompt prompt]) (file w))) ->
  (forall l ls, stdin w = l :: ls ->
   Q (Returns l) (World ls (stdout w ++ [Prompt prompt]) (file w))) ->
  sat (input prompt) w Q.
Proof.
  unfold sat, input. destruct (stdin w) as [|l ls]; simpl; intros H1 H2; eauto.
Qed.

Lemma sat_on_file {A : Type} (f : db real -> result A * db real) w
    (Q : outcome A -> world real -> Prop) :
  Q (match (f (file w)).1 with
     | Ok a => Returns a
     | Raise e => Raises (Propagated e)
     end)
    (World (stdin w) (stdout w) (f (file w)).2) ->
  sat (on_file f) w Q.
Proof. done. Qed.

Lemma sat_mono {A : Type} (m : sh real A) w (Q Q' : outcome A -> world real -> Prop) :
  sat m w Q -> (forall o w', Q o w' -> Q' o w') -> sat m w Q'.
Proof. unfold sat. eauto. Qed.

(** A loop whose rounds each read a line ends within the rounds of
    [rounds]. *)
Lemma sat_while_true {A : Type} (body : sh real (option A)) (I : world real -> Prop)
    (Q : outcome A -> world real -> Prop) (n : nat) w :
  (forall w1, I w1 ->
     sat body w1 (fun o w' =>
       match o with
       | Returns (Some a) => Q (Returns a) w'
       | Returns None => I w' /\ (length (stdin w') < length (stdin w1))%nat
       | Raises e => Q (Raises e) w'
       | Diverges => False
       end)) ->
  I w -> (length (stdin w) < n)%nat ->
  sat (while_true n body) w Q.
Proof.
  intros Hbody. revert w. induction n as [|n IH]; intros w Hw Hn; [lia|].
  unfold sat. simpl. specialize (Hbody w Hw). unfold sat in Hbody.
  destruct (body w) as [[[a|]|e|] w']; simpl in *; try done.
  destruct Hbody as [Hw' Hlt]. apply IH; [done|lia].
Qed.

Lemma reads_from_refl w : reads_from w w.
Proof. by split. Qed.

Lemma reads_from_trans w1 w2 w3 :
  reads_from w1 w2 -> reads_from w2 w3 -> reads_from w1 w3.
Proof.
  intros [H1 F1] [H2 F2]. split; [by etrans|congruence].
Qed.

Lemma reads_from_length w w' :
  reads_from w w' -> (length (stdin w') <= length (stdin w))%nat.
Proof. intros [H _]. by apply suffix_length. Qed.

(** The loops of [input_int], [input_float] and [input_date]: a prompt, a
    line, and either its value or a message and another round. *)
Lemma sat_read_loop {A : Type} (prompt msg : string) (parse : string -> option A)
    (body : sh real (option A)) w (Q : outcome A -> world real -> Prop) :
  (forall w1, body w1 =
     (s ← input prompt;
      match parse s with
      | Some a => mret (Some a)
      | None => print msg;; mret None
      end) w1) ->
  (forall l a w', l ∈ stdin w -> parse l = Some a -> reads_from w w' ->
     (length (stdin w') < length (stdin w))%nat -> Q (Returns a) w') ->
  (forall w', reads_from w w' -> stdin w' = [] -> Q (Raises EOFError) w') ->
  sat (while_true (rounds w) body) w Q.
Proof.
  intros Hbody Hret Heof.
  apply (sat_while_true body (fun w1 => reads_from w w1)).
  - intros w1 Hw1. unfold sat. rewrite Hbody.
    apply sat_bind, sat_input.
    + intros Hnil. apply Heof; [|done].
      destruct Hw1 as [Hs Hf]. split; simpl; [|done]. apply suffix_nil.
    + intros l ls Hl.
      assert (Hw' : forall out, reads_from w (World ls out (file w1))).
      { intros out. destruct Hw1 as [Hs Hf]. split; simpl; [|done].
        etrans; [|exact Hs]. rewrite Hl. by apply suffix_cons_r. }
      destruct (parse l) as [a|] eqn:E.
      * apply sat_ret. eapply Hret; [|exact E|apply Hw'|].
        -- destruct Hw1 as [Hs _]. eapply elem_of_suffix; [|exact Hs].
           rewrite Hl. left.
        -- simpl. pose proof (reads_from_length _ _ Hw1) as Hlen.
           rewrite Hl in Hlen. simpl in Hlen. lia.
      * apply sat_bind, sat_print, sat_ret. simpl. split; [apply Hw'|].
        rewrite Hl. simpl. lia.
  - apply reads_from_refl.
  - unfold rounds. lia.
Qed.

(** The same loop, on the lines it reads: it skips the lines without a
    value, with the message once for each, and returns the value of the first
    line that has one. *)
Lemma read_loop_first {A : Type} (prompt msg : string) (parse : string -> option A)
    (body : sh real (option A)) (n : nat) w (bad : list string) (good : string)
    (rest : list string) (a : A) :
  (forall w1, body w1 =
     (s ← input prompt;
      match parse s with
      | Some a => mret (Some a)
      | None => print msg;; mret None
      end) w1) ->
  stdin w = bad ++ good :: rest ->
  Forall (fun l => parse l = None) bad -> parse good = Some a ->
  (length bad < n)%nat ->
  while_true n body w =
    (Returns a,
     World rest
       (stdout w ++ (bad ≫= fun _ => [Prompt prompt; Line msg]) ++ [Prompt prompt])
       (file w)).
Proof.
  intros Hbody. revert n w. induction bad as [|b bad IH]; intros n w Hin Hbad Hgood Hn.
  - destruct n as [|n]; [simpl in Hn; lia|]. simpl. rewrite Hbody.
    unfold mbind, sh_mbind, sh_bind, input. rewrite Hin. simpl. by rewrite Hgood.
  - destruct n as [|n]; [simpl in Hn; lia|]. simpl. rewrite Hbody.
    apply Forall_cons in Hbad as [Hb Hbad].
    unfold mbind, sh_mbind, sh_bind, input. rewrite Hin. simpl. rewrite Hb. simpl.
    erewrite IH; [|reflexivity|done|done|simpl in Hn; lia]. simpl.
    by rewrite <- !(assoc_L (++)).
Qed.

(** When no line has a value the loop reads them all and ends in
    [EOFError]. *)
Lemma read_loop_eof {A : Type} (prompt msg : string) (parse : string -> option A)
    (body : sh real (option A)) (n : nat) w :
  (forall w1, body w1 =
     (s ← input prompt;
      match parse s with
      | Some a => mret (Some a)
      | None => print msg;; mret None
      end) w1) ->
  Forall (fun l => parse l = None) (stdin w) ->
  (length (stdin w) < n)%nat ->
  while_true n body w =
    (Raises EOFError,
     World []
       (stdout w ++ (stdin w ≫= fun _ => [Prompt prompt; Line msg]) ++ [Prompt prompt])
       (file w)).
Proof.
  intros Hbody. destruct w as [lines out f]. simpl.
  revert n out. induction lines as [|b bad IH]; intros n out Hbad Hn.
  - destruct n as [|n]; [simpl in Hn; lia|]. simpl. by rewrite Hbody.
  - destruct n as [|n]; [simpl in Hn; lia|]. simpl. rewrite Hbody.
    apply Forall_cons in Hbad as [Hb Hbad].
    unfold mbind, sh_mbind, sh_bind, input. simpl. rewrite Hb. simpl.
    rewrite (IH n _ Hbad) by (simpl in Hn; lia).
    by rewrite <- !(assoc_L (++)).
Qed.

Lemma input_date_body (prompt : string) w :
  (s ← input prompt;
   let s := strip py s in
   if decide (s = EmptyString) then mret (Some (today py))
   else if fromisoformat py s then mret (Some s)
   else
     print "Formato inválido. Use AAAA-MM-DD ou deixe em branco para usar a data de hoje.";;
     mret None) w =
  (s ← input prompt;
   match date_of_line py s with
   | Some a => mret (Some a)
   | None =>
       print "Formato inválido. Use AAAA-MM-DD ou deixe em branco para usar a data de hoje.";;
       mret None
   end) w.
Proof.
  unfold mbind, sh_mbind, sh_bind, date_of_line.
  destruct (input prompt w) as [[l|e|] w']; try done.
  simpl. case_decide; [done|]. by destruct (fromisoformat py (strip py l)).
Qed.

Lemma sat_input_int (prompt : string) w (Q : outcome Z -> world real -> Prop) :
  (forall l z w', l ∈ stdin w -> int_of_str py (strip py l) = Some z ->
     reads_from w w' -> (length (stdin w') < length (stdin w))%nat ->
     Q (Returns z) w') ->
  (forall w', reads_from w w' -> stdin w' = [] -> Q (Raises EOFError) w') ->
  sat (input_int py prompt) w Q.
Proof.
  intros Hret Heof.
  apply (sat_read_loop prompt "Entrada inválida. Digite um número inteiro."
           (fun l => int_of_str py (strip py l))); done.
Qed.

Lemma sat_input_float (prompt : string) w (Q : outcome float -> world real -> Prop) :
  (forall l x w', l ∈ stdin w -> float_of_str py (strip py l) = Some x ->
     reads_from w w' -> (length (stdin w') < length (stdin w))%nat ->
     Q (Returns x) w') ->
  (forall w', reads_from w w' -> stdin w' = [] -> Q (Raises EOFError) w') ->
  sat (input_float py prompt) w Q.
Proof.
  intros Hret Heof.
  apply (sat_read_loop prompt "Entrada inválida. Digite um número (ex: 12.50)."
           (fun l => float_of_str py (strip py l))); done.
Qed.

Lemma sat_input_date (prompt : string) w (Q : outcome string -> world real -> Prop) :
  (forall l d w', l ∈ stdin w -> date_of_line py l = Some d ->
     reads_from w w' -> (length (stdin w') < length (stdin w))%nat ->
     Q (Returns d) w') ->
  (forall w', reads_from w w' -> stdin w' = [] -> Q (Raises EOFError) w') ->
  sat (input_date py prompt) w Q.
Proof.
  intros Hret Heof.
  apply (sat_read_loop prompt
           "Formato inválido. Use AAAA-MM-DD ou deixe em branco para usar a data de hoje."
           (date_of_line py)); [|done..].
  intros w1. apply input_date_body.
Qed.

(** X12.  [input_int] asks again for each line that [int] rejects, with the
    message once for each, and returns the value of the first line that it
    accepts; the lines after it stay to be read and the file is untouched.
    When [int] rejects every line, [input_int] reads them all and ends in
    [EOFError]. *)
Theorem input_int_first_valid (prompt : string) w :
  (forall (bad : list string) (good : string) (rest : list string) (z : Z),
     stdin w = bad ++ good :: rest ->
     Forall (fun l => int_of_str py (strip py l) = None) bad ->
     int_of_str py (strip py good) = Some z ->
     input_int py prompt w =
       (Returns z,
        World rest
          (stdout w
           ++ (bad ≫= fun _ => [Prompt prompt; Line "Entrada inválida. Digite um número inteiro."])
           ++ [Prompt prompt])
          (file w))) /\
  (Forall (fun l => int_of_str py (strip py l) = None) (stdin w) ->
   input_int py prompt w =
     (Raises EOFError,
      World []
        (stdout w
         ++ (stdin w ≫= fun _ => [Prompt prompt; Line "Entrada inválida. Digite um número inteiro."])
         ++ [Prompt prompt])
        (file w))).
Proof.
  split.
  - intros bad good rest z Hin Hbad Hgood.
    apply (read_loop_first prompt "Entrada inválida. Digite um número inteiro."
             (fun l => int_of_str py (strip py l)) _ _ _ bad good); try done.
    unfold rounds. rewrite Hin, length_app. simpl. lia.
  - intros Hbad.
    apply (read_loop_eof prompt "Entrada inválida. Digite um número inteiro."
             (fun l => int_of_str py (strip py l))); try done.
    unfold rounds. lia.
Qed.

(** X13.  [input_float] does the same with [float]: it returns the value of
    the first line that [float] accepts, after the message for each line
    before it, and ends in [EOFError] when there is none. *)
Theorem input_float_first_valid (prompt : string) w :
  (forall (bad : list string) (good : string) (rest : list string) (x : float),
     stdin w = bad ++ good :: rest ->
     Forall (fun l => float_of_str py (strip py l) = None) bad ->
     float_of_str py (strip py good) = Some x ->
     input_float py prompt w =
       (Returns x,
        World rest
          (stdout w
           ++ (bad ≫= fun _ => [Prompt prompt; Line "Entrada inválida. Digite um número (ex: 12.50)."])
           ++ [Prompt prompt])
          (file w))) /\
  (Forall (fun l => float_of_str py (strip py l) = None) (stdin w) ->
   input_float py prompt w =
     (Raises EOFError,
      World []
        (stdout w
         ++ (stdin w ≫= fun _ => [Prompt prompt; Line "Entrada inválida. Digite um número (ex: 12.50)."])
         ++ [Prompt prompt])
        (file w))).
Proof.
  split.
  - intros bad good rest x Hin Hbad Hgood.
    apply (read_loop_first prompt "Entrada inválida. Digite um número (ex: 12.50)."
             (fun l => float_of_str py (strip py l)) _ _ _ bad good); try done.
    unfold rounds. rewrite Hin, length_app. simpl. lia.
  - intros Hbad.
    apply (read_loop_eof prompt "Entrada inválida. Digite um número (ex: 12.50)."
             (fun l => float_of_str py (strip py l))); try done.
    unfold rounds. lia.
Qed.

(** X14.  [input_date] asks again for each line that is not blank and
    that [fromisoformat] rejects, with the message once for each, and returns
    for the first other line: the date of today when the line is blank, the
    line without its blanks when [fromisoformat] accepts it.  The lines after
    it stay to be read and the file is untouched.  When every line is
    rejected, [input_date] reads them all and ends in [EOFError]. *)
Theorem input_date_valid (prompt : string) w :
  (forall (bad : list string) (good : string) (rest : list string),
     stdin w = bad ++ good :: rest ->
     Forall (fun l => strip py l <> EmptyString /\
                      fromisoformat py (strip py l) = false) bad ->
     strip py good = EmptyString \/ fromisoformat py (strip py good) = true ->
     input_date py prompt w =
       (Returns (if decide (strip py good = EmptyString) then today py
                 else strip py good),
        World rest
          (stdout w
           ++ (bad ≫= fun _ => [Prompt prompt; Line "Formato inválido. Use AAAA-MM-DD ou deixe em branco para usar a data de hoje."])
           ++ [Prompt prompt])
          (file w))) /\
  (Forall (fun l => strip py l <> EmptyString /\
                    fromisoformat py (strip py l) = false) (stdin w) ->
   input_date py prompt w =
     (Raises EOFError,
      World []
        (stdout w
         ++ (stdin w ≫= fun _ => [Prompt prompt; Line "Formato inválido. Use AAAA-MM-DD ou deixe em branco para usar a data de hoje."])
         ++ [Prompt prompt])
        (file w))).
Proof.
  assert (Hnone : forall l, strip py l <> EmptyString /\
                    fromisoformat py (strip py l) = false ->
                    date_of_line py l = None).
  { intros l [Hl Hf]. unfold date_of_line. simpl.
    rewrite decide_False by done. by rewrite Hf. }
  split.
  - intros bad good rest Hin Hbad Hgood.
    apply (read_loop_first prompt
             "Formato inválido. Use AAAA-MM-DD ou deixe em branco para usar a data de hoje."
             (date_of_line py) _ _ _ bad good).
    + intros w1. apply input_date_body.
    + done.
    + eapply Forall_impl; [exact Hbad|]. exact Hnone.
    + unfold date_of_line. simpl. case_decide; [done|].
      destruct Hgood as [?| ->]; done.
    + unfold rounds. rewrite Hin, length_app. simpl. lia.
  - intros Hbad.
    apply (read_loop_eof prompt
             "Formato inválido. Use AAAA-MM-DD ou deixe em branco para usar a data de hoje."
             (date_of_line py)).
    + intros w1. apply input_date_body.
    + eapply Forall_impl; [exact Hbad|]. exact Hnone.
    + unfold rounds. lia.
Qed.

(** The same rules, with the lines that the branch started with. *)
Lemma sat_input_at (lines : list string) (prompt : string) w
    (Q : outcome string -> world real -> Prop) :
  stdin w `suffix_of` lines ->
  (stdin w = [] ->
   Q (Raises EOFError) (World [] (stdout w ++ [Prompt prompt]) (file w))) ->
  (forall l ls, ls `suffix_of` lines ->
   Q (Returns l) (World ls (stdout w ++ [Prompt prompt]) (file w))) ->
  sat (input prompt) w Q.
Proof.
  intros Hsuf Heof Hret. apply sat_input; [done|].
  intros l ls Hl. apply Hret. etrans; [|exact Hsuf]. rewrite Hl.
  by apply suffix_cons_r.
Qed.

Lemma sat_input_int_at (lines : list string) (prompt : string) w
    (Q : outcome Z -> world real -> Prop) :
  stdin w `suffix_of` lines ->
  (forall z w', stdin w' `suffix_of` lines -> file w' = file w -> Q (Returns z) w') ->
  (forall w', stdin w' = [] -> file w' = file w -> Q (Raises EOFError) w') ->
  sat (input_int py prompt) w Q.
Proof.
  intros Hsuf Hret Heof. apply sat_input_int.
  - intros l z w' _ _ [Hs Hf] _. apply Hret; [by etrans|done].
  - intros w' [Hs Hf] Hnil. by apply Heof.
Qed.

Lemma sat_input_float_at (lines : list string) (prompt : string) w
    (Q : outcome float -> world real -> Prop) :
  stdin w `suffix_of` lines ->
  (forall x w', stdin w' `suffix_of` lines -> file w' = file w -> Q (Returns x) w') ->
  (forall w', stdin w' = [] -> file w' = file w -> Q (Raises EOFError) w') ->
  sat (input_float py prompt) w Q.
Proof.
  intros Hsuf Hret Heof. apply sat_input_float.
  - intros l z w' _ _ [Hs Hf] _. apply Hret; [by etrans|done].
  - intros w' [Hs Hf] Hnil. by apply Heof.
Qed.

Lemma sat_input_date_at (lines : list string) (prompt : string) w
    (Q : outcome string -> world real -> Prop) :
  stdin w `suffix_of` lines ->
  (forall d w', stdin w' `suffix_of` lines -> file w' = file w -> Q (Returns d) w') ->
  (forall w', stdin w' = [] -> file w' = file w -> Q (Raises EOFError) w') ->
  sat (input_date py prompt) w Q.
Proof.
  intros Hsuf Hret Heof. apply sat_input_date.
  - intros l z w' _ _ [Hs Hf] _. apply Hret; [by etrans|done].
  - intros w' [Hs Hf] Hnil. by apply Heof.
Qed.

(** A loop that only prints leaves the lines and the file. *)
Lemma sat_for_each_print {A : Type} (l : list A) (body : A -> sh real ()) w
    (Q : outcome () -> world real -> Prop) :
  (forall x w1, exists out, body x w1 = (Returns (), World (stdin w1) out (file w1))) ->
  (forall out, Q (Returns ()) (World (stdin w) out (file w))) ->
  sat (for_each l body) w Q.
Proof.
  intros Hbody. revert w. induction l as [|x l IH]; intros w HQ.
  - destruct w. apply HQ.
  - simpl. apply sat_bind. unfold sat at 1.
    destruct (Hbody x w) as [out ->]. simpl. apply IH. intros out'. apply HQ.
Qed.

Lemma branch_post_intro (keeps : bool) w (o : outcome (option ())) (w' : world real) :
  (o = Returns None \/ o = Raises EOFError \/ o = Raises ValueError \/
   exists e, binding_error e /\ o = Raises (Propagated e)) ->
  (o = Raises EOFError -> stdin w' = []) ->
  stdin w' `suffix_of` stdin w ->
  (keeps = true -> referential_integrity (file w) -> referential_integrity (file w')) ->
  branch_post keeps w o w'.
Proof. by repeat split. Qed.

(** Rules for the steps of a branch. *)
Ltac sh_step lines :=
  lazymatch goal with
  | |- sat (mbind _ _) _ _ => apply sat_bind
  | |- sat (fmap _ _) _ _ => apply sat_fmap
  | |- sat (mret _) _ _ => apply sat_ret
  | |- sat (print _) _ _ => apply sat_print
  | |- sat (on_file _) _ _ => apply sat_on_file
  | |- sat (input _) _ _ =>
      apply (sat_input_at lines);
        [cbn [stdin]; done|intros ?Hnil|intros ?l ?ls ?Hls]
  | |- sat (input_int _ _) _ _ =>
      apply (sat_input_int_at lines);
        [cbn [stdin]; done|intros ?z ?w ?Hsuf ?Hfile|intros ?w ?Hnil ?Hfile]
  | |- sat (input_float _ _) _ _ =>
      apply (sat_input_float_at lines);
        [cbn [stdin]; done|intros ?x ?w ?Hsuf ?Hfile|intros ?w ?Hnil ?Hfile]
  | |- sat (input_date _ _) _ _ =>
      apply (sat_input_date_at lines);
        [cbn [stdin]; done|intros ?d ?w ?Hsuf ?Hfile|intros ?w ?Hnil ?Hfile]
  | |- sat (for_each _ _) _ _ =>
      apply sat_for_each_print;
        [intros ?x ?w; repeat (let y := fresh in destruct x as [x y]);
         eexists; reflexivity
        |intros ?out]
  end; cbv beta iota; cbn [stdin stdout file fst snd] in *.

Ltac sh_leaf :=
  apply branch_post_intro; cbn [stdin stdout file];
    [first [by eauto
           |do 3 right; eexists; split; [eassumption|reflexivity]]
    |try done; by intros [=]
    |try done; try apply suffix_nil;
     try (match goal with H : stdin _ = [] |- _ => rewrite H end; apply suffix_nil)
    |try (by intros [=]); intros _ ?Hri].

(** The data-access functions return, or raise with the file as it was;
    the writes keep the orders on clients that exist, [delete_client]
    apart. *)
Lemma add_client_returns (n : string) (e t : option string) s :
  exists i, (add_client n e t s).1 = Ok i.
Proof. rewrite add_client_eq. by eexists. Qed.

Lemma get_client_by_id_outcome (i : Z) s :
  get_client_by_id i s =
    (Ok ((fun c => (i, nome c, email c, telefone c)) <$> clientes s !! i), s) \/
  (exists e, binding_error e /\ get_client_by_id i s = (Raise e, s)).
Proof.
  rewrite get_client_by_id_eq. destruct (binds_integer _ _ _); [by left|].
  right. exists too_large. split; [by left|done].
Qed.

Lemma get_order_by_id_outcome (i : Z) s :
  get_order_by_id i s =
    (Ok ((fun p => (i, cliente_id p, produto p, to_float (valor p), data p))
           <$> pedidos s !! i), s) \/
  (exists e, binding_error e /\ get_order_by_id i s = (Raise e, s)).
Proof.
  rewrite get_order_by_id_eq. destruct (binds_integer _ _ _); [by left|].
  right. exists too_large. split; [by left|done].
Qed.

Lemma update_client_outcome (i : Z) (n : string) (e t : option string) s :
  (exists b, (update_client i n e t s).1 = Ok b) \/
  (exists x, binding_error x /\ update_client i n e t s = (Raise x, s)).
Proof.
  rewrite update_client_eq. destruct (binds_integer _ _ _).
  - left. destruct (clientes s !! i); by eexists.
  - right. exists too_large. split; [by left|done].
Qed.

Lemma delete_client_outcome (i : Z) s :
  (exists b, (delete_client i s).1 = Ok b) \/
  (exists x, binding_error x /\ delete_client i s = (Raise x, s)).
Proof.
  rewrite delete_client_eq. destruct (binds_integer _ _ _).
  - left. destruct (clientes s !! i); by eexists.
  - right. exists too_large. split; [by left|done].
Qed.

Lemma add_order_outcome (ci : Z) (p : string) (v : float) (d : string) s :
  (exists i, (add_order ci p v d s).1 = Ok i) \/
  (exists x, binding_error x /\ add_order ci p v d s = (Raise x, s)).
Proof.
  rewrite add_order_eq. destruct (binds_integer _ _ _).
  - destruct (of_float v).
    + left. by eexists.
    + right. exists valor_not_null. split; [by right|done].
  - right. exists too_large. split; [by left|done].
Qed.

Lemma update_order_outcome (i ci : Z) (p : string) (v : float) (d : string) s :
  (exists b, (update_order i ci p v d s).1 = Ok b) \/
  (exists x, binding_error x /\ update_order i ci p v d s = (Raise x, s)).
Proof.
  rewrite update_order_eq. destruct (_ && _).
  - destruct (pedidos s !! i); [|left; by eexists].
    destruct (of_float v).
    + left. by eexists.
    + right. exists valor_not_null. split; [by right|done].
  - right. exists too_large. split; [by left|done].
Qed.

Lemma delete_order_outcome (i : Z) s :
  (exists b, (delete_order i s).1 = Ok b) \/
  (exists x, binding_error x /\ delete_order i s = (Raise x, s)).
Proof.
  rewrite delete_order_eq. destruct (binds_integer _ _ _).
  - left. destruct (pedidos s !! i); by eexists.
  - right. exists too_large. split; [by left|done].
Qed.

Lemma add_client_integrity (n : string) (e t : option string) s :
  referential_integrity s -> referential_integrity (add_client n e t s).2.
Proof. intros H. by apply (step_referential_integrity (Add_client n e t)). Qed.

Lemma update_client_integrity (i : Z) (n : string) (e t : option string) s :
  referential_integrity s -> referential_integrity (update_client i n e t s).2.
Proof. intros H. by apply (step_referential_integrity (Update_client i n e t)). Qed.

Lemma add_order_integrity (ci : Z) (p : string) (v : float) (d : string) s :
  is_Some (clientes s !! ci) ->
  referential_integrity s -> referential_integrity (add_order ci p v d s).2.
Proof. intros Hc H. by apply (step_referential_integrity (Add_order ci p v d)). Qed.

Lemma update_order_integrity (i ci : Z) (p : string) (v : float) (d : string) s :
  is_Some (clientes s !! ci) ->
  referential_integrity s -> referential_integrity (update_order i ci p v d s).2.
Proof. intros Hc H. by apply (step_referential_integrity (Update_order i ci p v d)). Qed.

Lemma delete_order_integrity (i : Z) s :
  referential_integrity s -> referential_integrity (delete_order i s).2.
Proof. intros H. by apply (step_referential_integrity (Delete_order i)). Qed.

Ltac sh_file :=
  repeat match goal with H : file _ = _ |- _ => rewrite H in *; clear H end.

(** A call of the menu returns, or raises and leaves the file. *)
Ltac sh_call lem :=
  let b := fresh "b" in
  let x := fresh "x" in
  let Hx := fresh "Hx" in
  let Hcall := fresh "Hcall" in
  destruct lem as [[b Hcall]|(x & Hx & Hcall)]; rewrite Hcall; cbn [fst snd].

Lemma choice_4_post w : sat (choice_4 py) w (branch_post false w).
Proof.
  unfold choice_4. repeat sh_step (stdin w).
  - sh_call (delete_client_outcome z (file w0)); repeat sh_step (stdin w); sh_leaf.
  - sh_leaf.
Qed.

Lemma choice_8_post w : sat (choice_8 py) w (branch_post true w).
Proof.
  unfold choice_8. repeat sh_step (stdin w).
  - sh_call (delete_order_outcome z (file w0)); repeat sh_step (stdin w); sh_leaf.
    + rewrite Hfile. by apply delete_order_integrity.
    + by rewrite Hfile.
  - sh_leaf. by rewrite Hfile.
Qed.

Lemma choice_1_post w : sat choice_1 w (branch_post true w).
Proof.
  unfold choice_1. repeat sh_step (stdin w). rewrite get_clients_eq. cbn [fst snd].
  destruct (cliente_tuple <$> order_by_id (clientes (file w))) as [|r rows];
    repeat sh_step (stdin w); by sh_leaf.
Qed.

Lemma choice_5_post w : sat (choice_5 py) w (branch_post true w).
Proof.
  unfold choice_5. repeat sh_step (stdin w). rewrite get_orders_eq. cbn [fst snd].
  destruct (pedido_tuple <$> order_by_id (pedidos (file w))) as [|r rows];
    repeat sh_step (stdin w); by sh_leaf.
Qed.

Lemma choice_9_post w : sat (choice_9 py) w (branch_post true w).
Proof.
  unfold choice_9. repeat sh_step (stdin w).
  rewrite list_orders_with_clients_eq. cbn [fst snd].
  destruct (order_by_id (pedidos (file w)) ≫= join_clientes (file w)) as [|r rows];
    repeat sh_step (stdin w); by sh_leaf.
Qed.

Lemma choice_2_post w : sat (choice_2 py) w (branch_post true w).
Proof.
  unfold choice_2. repeat sh_step (stdin w); try by sh_leaf.
  case_decide.
  - repeat sh_step (stdin w). by sh_leaf.
  - repeat sh_step (stdin w).
    match goal with |- context [add_client ?n ?e ?t ?s] =>
      destruct (add_client_returns n e t s) as [i ->] end.
    repeat sh_step (stdin w). sh_leaf. by apply add_client_integrity.
Qed.

Lemma choice_3_post w : sat (choice_3 py) w (branch_post true w).
Proof.
  unfold choice_3. repeat sh_step (stdin w); [|sh_leaf; by sh_file].
  destruct (get_client_by_id_outcome z (file w0)) as [->|(x & Hx & ->)];
    cbn [fst snd]; [|sh_leaf; by sh_file].
  destruct (clientes (file w0) !! z) as [c|] eqn:E; cbn [fmap option_fmap option_map].
  - repeat sh_step (stdin w); try (sh_leaf; by sh_file).
    match goal with |- context [update_client ?i ?n ?e ?t ?s] =>
      sh_call (update_client_outcome i n e t s) end;
      repeat sh_step (stdin w); sh_leaf; sh_file; [|done].
    match goal with H : (update_client ?i ?n ?e ?t ?s).1 = _ |- _ =>
      by apply (update_client_integrity i n e t s) end.
  - repeat sh_step (stdin w). sh_leaf. by sh_file.
Qed.

Lemma choice_6_post w : sat (choice_6 py) w (branch_post true w).
Proof.
  unfold choice_6. repeat sh_step (stdin w); [|sh_leaf; by sh_file].
  destruct (get_client_by_id_outcome z (file w0)) as [->|(x & Hx & ->)];
    cbn [fst snd]; [|sh_leaf; by sh_file].
  destruct (clientes (file w0) !! z) as [c|] eqn:E; cbn [fmap option_fmap option_map].
  - repeat sh_step (stdin w); try (sh_leaf; by sh_file).
    match goal with |- context [add_order ?ci ?p ?v ?d ?s] =>
      sh_call (add_order_outcome ci p v d s) end;
      repeat sh_step (stdin w); sh_leaf; sh_file; [|done].
    apply add_order_integrity; [by eexists|done].
  - repeat sh_step (stdin w). sh_leaf. by sh_file.
Qed.

Lemma sat_raise {A : Type} (e : raised) w (Q : outcome A -> world real -> Prop) :
  Q (Raises e) w -> sat (fun w => (Raises e, w)) w Q.
Proof. done. Qed.

Lemma choice_7_post w : sat (choice_7 py) w (branch_post true w).
Proof.
  unfold choice_7. repeat sh_step (stdin w); [|sh_leaf; by sh_file].
  destruct (get_order_by_id_outcome z (file w0)) as [->|(x & Hx & ->)];
    cbn [fst snd]; [|sh_leaf; by sh_file].
  destruct (pedidos (file w0) !! z) as [o|] eqn:Eo; cbn [fmap option_fmap option_map];
    [|repeat sh_step (stdin w); sh_leaf; by sh_file].
  repeat sh_step (stdin w); [|sh_leaf; by sh_file].
  destruct (get_client_by_id_outcome z0 (file w1)) as [->|(x & Hx & ->)];
    cbn [fst snd]; [|sh_leaf; by sh_file].
  destruct (clientes (file w1) !! z0) as [c|] eqn:Ec; cbn [fmap option_fmap option_map];
    [|repeat sh_step (stdin w); sh_leaf; by sh_file].
  repeat sh_step (stdin w); try (sh_leaf; by sh_file).
  assert (Hsome : is_Some (clientes (file w) !! z0)) by (sh_file; by eexists).
  case_decide; [|destruct (float_of_str py (strip py l0)) as [x|]].
  - repeat sh_step (stdin w); try (sh_leaf; by sh_file).
    match goal with |- context [update_order ?i ?ci ?p ?v ?d ?s] =>
      sh_call (update_order_outcome i ci p v d s) end;
      repeat sh_step (stdin w); sh_leaf; sh_file; [|done].
    by apply update_order_integrity.
  - repeat sh_step (stdin w); try (sh_leaf; by sh_file).
    match goal with |- context [update_order ?i ?ci ?p ?v ?d ?s] =>
      sh_call (update_order_outcome i ci p v d s) end;
      repeat sh_step (stdin w); sh_leaf; sh_file; [|done].
    by apply update_order_integrity.
  - apply sat_raise. cbv beta iota. sh_leaf. by sh_file.
Qed.

(** The orders of the seed are bound and stored. *)
Lemma seed_valor_stored (x : float) :
  PrimFloat.is_nan x = false ->
  forall (ci : Z) (p d : string) s,
    is_Some (clientes s !! ci) ->
    exists r, of_float x = Some r /\ to_float r = as_stored x /\
      add_order ci p x d s =
        (Ok (new_rowid (pedidos s) (pedidos_seq s)),
         Db (clientes s) (clientes_seq s)
            (<[new_rowid (pedidos s) (pedidos_seq s) := Pedido ci p r d]> (pedidos s))
            (Z.to_N (new_rowid (pedidos s) (pedidos_seq s)))).
Proof.
  intros Hx ci p d s Hci. destruct (of_float_is_Some x Hx) as (r & Hr & Hto).
  exists r. split; [done|]. split; [done|].
  by rewrite add_order_eq, binds_integer_stored, Hr.
Qed.

(** [seed_example] returns, reads no line, and keeps every order on a client
    that exists. *)
Lemma seed_example_post w :
  sat (seed_example py) w (fun o w' =>
    o = Returns () /\ stdin w' = stdin w /\
    (referential_integrity (file w) -> referential_integrity (file w'))).
Proof.
  unfold seed_example. repeat sh_step (stdin w). rewrite get_clients_eq. cbn [fst snd].
  destruct (cliente_tuple <$> order_by_id (clientes (file w))) as [|r rows].
  - repeat sh_step (stdin w). rewrite add_client_eq. cbn [fst snd].
    repeat sh_step (stdin w). rewrite add_client_eq. cbn [fst snd].
    repeat sh_step (stdin w).
    match goal with |- context [add_order ?ci ?p ?v ?d ?s] =>
      assert (H1 : referential_integrity (file w) ->
                   referential_integrity (add_order ci p v d s).2);
      [|destruct (seed_valor_stored v eq_refl ci p d s) as (r1 & _ & _ & Hadd1)]
    end.
    { intros Hri. apply add_order_integrity.
      - cbn [clientes]. rewrite lookup_insert. case_decide; [by eexists|].
        rewrite lookup_insert_eq. by eexists.
      - apply (add_client_integrity "Bruno Costa" (Some "bruno@example.com")
                 (Some "21988880000") (add_client "Ana Silva" (Some "ana@example.com")
                   (Some "11999990000") (file w)).2).
        by apply add_client_integrity. }
    { cbn [clientes]. rewrite lookup_insert. case_decide; [by eexists|].
      rewrite lookup_insert_eq. by eexists. }
    rewrite Hadd1 in *. cbn [fst snd] in *.
    repeat sh_step (stdin w).
    match goal with |- context [add_order ?ci ?p ?v ?d ?s] =>
      assert (H2 : referential_integrity s ->
                   referential_integrity (add_order ci p v d s).2);
      [|destruct (seed_valor_stored v eq_refl ci p d s) as (r2 & _ & _ & Hadd2)]
    end.
    { intros Hri. apply add_order_integrity; [|done].
      cbn [snd clientes]. rewrite lookup_insert_eq. by eexists. }
    { cbn [snd clientes]. rewrite lookup_insert_eq. by eexists. }
    rewrite Hadd2 in *. cbn [fst snd] in *.
    repeat sh_step (stdin w). split; [done|]. split; [done|]. eauto.
  - repeat sh_step (stdin w). done.
Qed.

Lemma branch_round_post (keeps : bool) (l : string) (ls : list string) w
    (out : list written) (o : outcome (option ())) (w' : world real) :
  stdin w = l :: ls ->
  (keeps = false -> strip py l = "4") ->
  branch_post keeps (World ls out (file w)) o w' ->
  round_post py w o w'.
Proof.
  intros Hl Hk (Ho & Heof & Hsuf & Hri). cbn [stdin file] in *.
  split; [destruct Ho as [-> | [-> | [-> | Ho]]]; auto 6|]. split; [done|]. split.
  { rewrite Hl. by apply suffix_cons_r. }
  split.
  { intros _. apply suffix_length in Hsuf. rewrite Hl. simpl. lia. }
  intros Hfile Hchoice. destruct keeps; [by apply Hri|].
  exfalso. apply (Hchoice l); [by rewrite Hl|by apply Hk].
Qed.

Ltac sh_pure :=
  lazymatch goal with
  | |- sat (mbind _ _) _ _ => apply sat_bind
  | |- sat (fmap _ _) _ _ => apply sat_fmap
  | |- sat (mret _) _ _ => apply sat_ret
  | |- sat (print _) _ _ => apply sat_print
  end; cbv beta iota; cbn [stdin stdout file fst snd] in *.

Lemma menu_round_post w : sat (menu_round py) w (round_post py w).
Proof.
  unfold menu_round, menu, print_header. repeat sh_pure.
  apply sat_input; cbn [stdin stdout file].
  - intros Hnil. unfold round_post. cbn [stdin file]. split_and!; try done.
    + eauto.
    + apply suffix_nil.
  - intros l ls Hl. cbv beta iota.
    repeat case_decide.
    + eapply sat_mono; [apply choice_1_post|].
      intros o w'. by apply (branch_round_post true l ls).
    + eapply sat_mono; [apply choice_2_post|].
      intros o w'. by apply (branch_round_post true l ls).
    + eapply sat_mono; [apply choice_3_post|].
      intros o w'. by apply (branch_round_post true l ls).
    + eapply sat_mono; [apply choice_4_post|].
      intros o w'. by apply (branch_round_post false l ls).
    + eapply sat_mono; [apply choice_5_post|].
      intros o w'. by apply (branch_round_post true l ls).
    + eapply sat_mono; [apply choice_6_post|].
      intros o w'. by apply (branch_round_post true l ls).
    + eapply sat_mono; [apply choice_7_post|].
      intros o w'. by apply (branch_round_post true l ls).
    + eapply sat_mono; [apply choice_8_post|].
      intros o w'. by apply (branch_round_post true l ls).
    + eapply sat_mono; [apply choice_9_post|].
      intros o w'. by apply (branch_round_post true l ls).
    + apply sat_bind. eapply sat_mono; [apply seed_example_post|].
      intros o w' (-> & Hstdin & Hri). cbn [stdin file] in *.
      apply sat_ret. apply (branch_round_post true l ls w []); [done..|].
      apply branch_post_intro; cbn [stdin file];
        [by left|done|by rewrite Hstdin|intros _; apply Hri].
    + repeat sh_pure.
      unfold round_post. cbn [stdin file]. split_and!; try done.
      * eauto.
      * rewrite Hl. by apply suffix_cons_r.
    + repeat sh_pure.
      apply (branch_round_post true l ls w []); [done..|].
      apply branch_post_intro; cbn [stdin file]; [by left|done..].
Qed.


(** X16.  When the file keeps every order on a client that exists and no
    line of the input is the choice 4, the file that [main_loop] leaves keeps
    every order on a client that exists: the menu writes an order only for a
    client that it has found. *)
Theorem main_loop_referential_integrity (lines : list string) (f : option (db real)) :
  referential_integrity (init_db f) ->
  Forall (fun l => strip py l <> "4") lines ->
  referential_integrity (file (main_loop py lines f).2).
Proof.
  intros Hri Hlines. unfold main_loop.
  apply (sat_while_true (menu_round py)
           (fun w => referential_integrity (file w) /\
                     Forall (fun l => strip py l <> "4") (stdin w))
           (fun o w' => referential_integrity (file w')));
    [|done|unfold rounds; lia].
  intros w1 [Hri1 Hl1]. eapply sat_mono; [apply menu_round_post|].
  intros o w' (Ho & Heof & Hsuf & Hlt & Hkeep).
  assert (Hri' : referential_integrity (file w')).
  { apply Hkeep; [done|]. intros l Hl. rewrite Forall_forall in Hl1. apply Hl1.
    destruct (stdin w1) as [|l1 ls1]; [done|]. simpl in Hl.
    injection Hl as <-. apply list_elem_of_here. }
  destruct Ho as [->|[-> | [-> | [-> | (e & _ & ->)]]]]; try done.
  split; [split; [done|]|by apply Hlt].
  destruct Hsuf as [k Hk]. rewrite Hk in Hl1. by apply Forall_app in Hl1 as [_ ?].
Qed.

(** ** Rounds of the menu on given lines *)

Lemma menu_writes w :
  menu w = (Returns (), World (stdin w) (stdout (menu w).2) (file w)).
Proof. by destruct w. Qed.

Lemma sat_menu w (Q : outcome () -> world real -> Prop) :
  Q (Returns ()) (World (stdin w) (stdout (menu w).2) (file w)) -> sat menu w Q.
Proof. unfold sat. by rewrite menu_writes. Qed.

Lemma sat_input_cons (prompt l : string) (ls : list string) w
    (Q : outcome string -> world real -> Prop) :
  stdin w = l :: ls ->
  Q (Returns l) (World ls (stdout w ++ [Prompt prompt]) (file w)) ->
  sat (input prompt) w Q.
Proof. intros Hl HQ. unfold sat, input. by rewrite Hl. Qed.

Lemma sat_input_int_cons (prompt l : string) (ls : list string) (z : Z) w
    (Q : outcome Z -> world real -> Prop) :
  stdin w = l :: ls -> int_of_str py (strip py l) = Some z ->
  Q (Returns z) (World ls (stdout w ++ [Prompt prompt]) (file w)) ->
  sat (input_int py prompt) w Q.
Proof.
  intros Hl Hz HQ. unfold sat, input_int.
  rewrite (read_loop_first prompt "Entrada inválida. Digite um número inteiro."
             (fun l => int_of_str py (strip py l)) _ _ w [] l ls z);
    try done.
  unfold rounds. simpl. lia.
Qed.

(** The steps of a round whose lines are known. *)
Ltac sh_run :=
  lazymatch goal with
  | |- sat (mbind _ _) _ _ => apply sat_bind
  | |- sat (fmap _ _) _ _ => apply sat_fmap
  | |- sat (mret _) _ _ => apply sat_ret
  | |- sat (print _) _ _ => apply sat_print
  | |- sat menu _ _ => apply sat_menu
  | |- sat (on_file _) _ _ => apply sat_on_file
  | |- sat (input _) _ _ => eapply sat_input_cons; [cbn [stdin]; reflexivity|]
  | |- sat (input_int _ _) _ _ =>
      eapply sat_input_int_cons; [cbn [stdin]; reflexivity|eassumption|]
  end; cbv beta iota; cbn [stdin stdout file fst snd compose] in *.

Ltac sh_choice :=
  repeat first [rewrite decide_True by done | rewrite decide_False by done].

Lemma sat_eq {A : Type} (m : sh real A) w (o : outcome A) (w' : world real) :
  sat m w (fun o1 w1 => (o1, w1) = (o, w')) -> m w = (o, w').
Proof. unfold sat. by destruct (m w). Qed.

(** X17.  Choice 6 with an id within the 64-bit range that is the id of no
    client writes nothing: the round says that the client does not exist,
    reads no further line, leaves the file as it was and goes round again. *)
Theorem menu_order_for_unknown_client w (c l : string) (rest : list string) (ci : Z) :
  stdin w = c :: l :: rest ->
  strip py c = "6" ->
  int_of_str py (strip py l) = Some ci ->
  int64 ci ->
  clientes (file w) !! ci = None ->
  menu_round py w =
    (Returns None,
     World rest
       (stdout (menu w).2
        ++ [Prompt "Escolha uma opção: ";
            Prompt "ID do cliente para este pedido: ";
            Line "Cliente não existe. Crie o cliente primeiro."])
       (file w)).
Proof.
  intros Hin Hc Hl Hr Hci. apply sat_eq. unfold menu_round.
  destruct w as [lines out f]. cbn [stdin file] in *. subst lines.
  repeat sh_run. rewrite Hc. sh_choice.
  unfold choice_6. repeat sh_run. rewrite get_client_by_id_absent by done.
  cbn [fst snd fmap option_fmap option_map].
  repeat sh_run. by rewrite <- !(assoc_L (++)).
Qed.

(** X18.  Choice 7 on a stored order and a client that exists, with a new
    value that is not blank and that [float] rejects, raises [ValueError]:
    nothing catches it, the round ends there with the file as it was. *)
Theorem menu_update_order_bad_value w (c l1 l2 l3 l4 : string)
    (rest : list string) (oi ci : Z) :
  stdin w = c :: l1 :: l2 :: l3 :: l4 :: rest ->
  strip py c = "7" ->
  int_of_str py (strip py l1) = Some oi -> is_Some (pedidos (file w) !! oi) ->
  int_of_str py (strip py l2) = Some ci -> is_Some (clientes (file w) !! ci) ->
  strip py l4 <> EmptyString -> float_of_str py (strip py l4) = None ->
  (menu_round py w).1 = Raises ValueError /\
  stdin (menu_round py w).2 = rest /\
  file (menu_round py w).2 = file w.
Proof.
  intros Hin Hc Hl1 [o Ho] Hl2 [cl Hcl] Hl4 Hfloat.
  enough (Hsat : sat (menu_round py) w (fun o1 w1 =>
            o1 = Raises ValueError /\ stdin w1 = rest /\ file w1 = file w)) by done.
  unfold menu_round.
  destruct w as [lines out f]. cbn [stdin file] in *. subst lines.
  repeat sh_run. rewrite Hc. sh_choice.
  unfold choice_7. repeat sh_run.
  rewrite (get_order_by_id_stored _ o) by done. cbn [fst snd].
  repeat sh_run.
  rewrite (get_client_by_id_stored _ cl) by done. cbn [fst snd].
  repeat sh_run. rewrite decide_False by done. rewrite Hfloat.
  apply sat_raise. cbv beta iota. done.
Qed.

(** X19.  Choice 2 with a blank name creates no client: the round reads the
    three answers, says that the name is required, and leaves the file as it
    was. *)
Theorem menu_add_client_blank_name w (c n e t : string) (rest : list string) :
  stdin w = c :: n :: e :: t :: rest ->
  strip py c = "2" -> strip py n = EmptyString ->
  menu_round py w =
    (Returns None,
     World rest
       (stdout (menu w).2
        ++ [Prompt "Escolha uma opção: "; Prompt "Nome: ";
            Prompt "Email (opcional): "; Prompt "Telefone (opcional): ";
            Line "Nome é obrigatório."])
       (file w)).
Proof.
  intros Hin Hc Hn. apply sat_eq. unfold menu_round.
  destruct w as [lines out f]. cbn [stdin file] in *. subst lines.
  repeat sh_run. rewrite Hc. sh_choice.
  unfold choice_2. repeat sh_run. rewrite Hn. rewrite decide_True by done.
  repeat sh_run. by rewrite <- !(assoc_L (++)).
Qed.

Lemma update_client_same (i : Z) (c : cliente) s :
  clientes s !! i = Some c ->
  update_client i (nome c) (email c) (telefone c) s = (Ok true, s).
Proof.
  intros Hc. rewrite update_client_eq, binds_integer_stored, Hc by (by eexists).
  f_equal. destruct s as [cs n ps m], c as [cn ce ct]. cbn in *. f_equal.
  by apply insert_id.
Qed.

(** X20.  Choice 3 on a client that exists, with the three answers left
    blank, keeps the client: the round says that it has updated and the file
    is what it was. *)
Theorem menu_update_client_blank w (c l b1 b2 b3 : string) (rest : list string)
    (i : Z) :
  stdin w = c :: l :: b1 :: b2 :: b3 :: rest ->
  strip py c = "3" ->
  int_of_str py (strip py l) = Some i -> is_Some (clientes (file w) !! i) ->
  strip py b1 = EmptyString -> strip py b2 = EmptyString -> strip py b3 = EmptyString ->
  exists out : list written,
    menu_round py w =
      (Returns None, World rest (out ++ [Line "Atualizado."]) (file w)).
Proof.
  intros Hin Hc Hl [cl Hcl] H1 H2 H3. eexists. apply sat_eq. unfold menu_round.
  destruct w as [lines out f]. cbn [stdin file] in *. subst lines.
  repeat sh_run. rewrite Hc. sh_choice.
  unfold choice_3. repeat sh_run.
  rewrite (get_client_by_id_stored _ cl) by done. cbn [fst snd].
  repeat sh_run. rewrite H1, H2, H3. unfold str_or. rewrite !decide_True by done.
  rewrite update_client_same by done. cbn [fst snd]. repeat sh_run.
  reflexivity.
Qed.



(** ** The seed *)

Lemma order_by_id_nil {V : Type} (t : gmap Z V) : order_by_id t = [] <-> t = ∅.
Proof.
  split.
  - intros Hnil. apply map_empty. intros k.
    destruct (t !! k) as [v|] eqn:E; [|done].
    apply elem_of_order_by_id in E. rewrite Hnil in E. by apply elem_of_nil in E.
  - intros ->. apply order_by_id_empty.
Qed.

(** X22.  On a file that has a client, [seed_example] writes nothing to the
    file: it says that the database already has data and returns. *)
Theorem seed_example_skips w :
  clientes (file w) <> ∅ ->
  seed_example py w =
    (Returns (),
     World (stdin w)
       (stdout w ++ [Line "O banco já possui dados. Seed não será aplicado."])
       (file w)).
Proof.
  intros Hne. apply sat_eq. unfold seed_example. repeat sh_run.
  rewrite get_clients_eq. cbn [fst snd].
  destruct (order_by_id (clientes (file w))) as [|r rows] eqn:E.
  - by apply order_by_id_nil in E.
  - cbn [fmap list_fmap]. repeat sh_run. by destruct w.
Qed.

(** X23.  On a file without clients, [seed_example] adds the two clients
    and, for each, one order under the id that [add_client] returned: the
    listing of clients is Ana and Bruno, the listing of orders gains the two
    orders at its end, each on its client, and a second [seed_example] leaves
    the file as it is. *)
Theorem seed_example_seeds w :
  clientes (file w) = ∅ ->
  exists (c1 c2 o1 o2 : Z) (w' : world real) (orders : list pedido_row),
    seed_example py w = (Returns (), w') /\
    stdin w' = stdin w /\
    stdout w' = stdout w ++ [Line "Dados de exemplo inseridos."] /\
    get_clients (file w') =
      (Ok [(c1, "Ana Silva", Some "ana@example.com", Some "11999990000");
           (c2, "Bruno Costa", Some "bruno@example.com", Some "21988880000")],
       file w') /\
    get_orders (file w) = (Ok orders, file w) /\
    get_orders (file w') =
      (Ok (orders
           ++ [(o1, c1, "Teclado mecânico", 299.90%float, today py);
               (o2, c2, monitor_24, 799.50%float, today py)]),
       file w') /\
    (seed_example py w').1 = Returns () /\
    file (seed_example py w').2 = file w'.
Proof.
  intros Hempty. destruct w as [lines out f]. cbn [file] in Hempty.
  set (c1 := new_rowid (clientes f) (clientes_seq f)).
  set (f1 := (add_client "Ana Silva" (Some "ana@example.com") (Some "11999990000") f).2).
  set (c2 := new_rowid (clientes f1) (clientes_seq f1)).
  set (f2 := (add_client "Bruno Costa" (Some "bruno@example.com")
                (Some "21988880000") f1).2).
  set (o1 := new_rowid (pedidos f2) (pedidos_seq f2)).
  assert (Hc1 : is_Some (clientes f2 !! c1)).
  { unfold f2, f1, c1. rewrite !add_client_eq. cbn [snd clientes].
    rewrite lookup_insert. case_decide; [by eexists|].
    rewrite lookup_insert_eq. by eexists. }
  destruct (seed_valor_stored 299.90%float eq_refl c1 "Teclado mecânico" (today py)
              f2 Hc1) as (r1 & _ & Hr1 & Hadd1).
  set (f3 := (add_order c1 "Teclado mecânico" 299.90%float (today py) f2).2).
  set (o2 := new_rowid (pedidos f3) (pedidos_seq f3)).
  assert (Hc2 : is_Some (clientes f3 !! c2)).
  { unfold f3. rewrite Hadd1. cbn [snd clientes].
    unfold f2, c2. rewrite add_client_eq. cbn [snd clientes].
    rewrite lookup_insert_eq. by eexists. }
  destruct (seed_valor_stored 799.50%float eq_refl c2 monitor_24 (today py)
              f3 Hc2) as (r2 & _ & Hr2 & Hadd2).
  set (f4 := (add_order c2 monitor_24 799.50%float (today py) f3).2).
  change (as_stored 299.90%float) with 299.90%float in Hr1.
  change (as_stored 799.50%float) with 799.50%float in Hr2.
  assert (Ha : add_client "Ana Silva" (Some "ana@example.com") (Some "11999990000") f
                 = (Ok c1, f1)) by reflexivity.
  assert (Hb : add_client "Bruno Costa" (Some "bruno@example.com")
                 (Some "21988880000") f1 = (Ok c2, f2)) by reflexivity.
  assert (H1 : add_order c1 "Teclado mecânico" 299.90%float (today py) f2 = (Ok o1, f3))
    by (unfold f3; by rewrite Hadd1).
  assert (H2 : add_order c2 monitor_24 799.50%float (today py) f3 = (Ok o2, f4))
    by (unfold f4; by rewrite Hadd2).
  assert (Hrun : seed_example py (World lines out f) =
            (Returns (), World lines (out ++ [Line "Dados de exemplo inseridos."]) f4)).
  { clear - Ha Hb H1 H2 Hempty. clearbody c1 f1 c2 f2 o1 f3 o2 f4.
    apply sat_eq. unfold seed_example. repeat sh_run.
    rewrite get_clients_eq, Hempty, order_by_id_empty. cbn [fst snd fmap list_fmap].
    repeat sh_run. rewrite Ha. cbn [fst snd]. repeat sh_run.
    rewrite Hb. cbn [fst snd]. repeat sh_run.
    rewrite H1. cbn [fst snd]. repeat sh_run.
    rewrite H2. cbn [fst snd]. repeat sh_run. done. }
  assert (Hclientes : clientes f4 =
            <[c2 := Cliente "Bruno Costa" (Some "bruno@example.com") (Some "21988880000")]>
              (<[c1 := Cliente "Ana Silva" (Some "ana@example.com") (Some "11999990000")]> ∅)).
  { unfold f4. rewrite Hadd2. unfold f3. rewrite Hadd1. cbn [snd clientes].
    unfold f2, c2, f1, c1. rewrite !add_client_eq. cbn.
    by rewrite Hempty. }
  exists c1, c2, o1, o2, (World lines (out ++ [Line "Dados de exemplo inseridos."]) f4),
    (pedido_tuple <$> order_by_id (pedidos f)).
  split; [done|]. split; [done|]. split; [done|]. cbn [file].
  split.
  { rewrite get_clients_eq, Hclientes. do 2 f_equal.
    rewrite order_by_id_insert_last.
    - rewrite order_by_id_insert_last.
      + by rewrite order_by_id_empty.
      + intros k x Hk. by rewrite lookup_empty in Hk.
    - intros k x Hk. apply lookup_insert_Some in Hk as [[<- _]|[_ Hk]].
      + unfold c2, f1. rewrite add_client_eq. cbn. apply new_rowid_gt_key with
          (v := Cliente "Ana Silva" (Some "ana@example.com") (Some "11999990000")).
        apply lookup_insert_eq.
      + by rewrite lookup_empty in Hk. }
  split; [apply get_orders_eq|].
  split.
  { rewrite get_orders_eq. do 2 f_equal.
    unfold f4. rewrite Hadd2. cbn [snd pedidos].
    rewrite order_by_id_insert_last by (intros k x Hk; by eapply new_rowid_gt_key).
    unfold f3 at 1. rewrite Hadd1. cbn [snd pedidos].
    rewrite order_by_id_insert_last by (intros k x Hk; by eapply new_rowid_gt_key).
    rewrite !fmap_app. unfold pedido_tuple at 2 3. cbn [fmap list_fmap fst snd
      cliente_id produto valor data]. rewrite Hr1, Hr2.
    by rewrite <- (assoc_L (++)). }
  assert (Hne : clientes f4 <> ∅).
  { rewrite Hclientes. apply insert_non_empty. }
  enough (Hskip : seed_example py (World lines (out ++ [Line "Dados de exemplo inseridos."]) f4) =
            (Returns (), World lines
               ((out ++ [Line "Dados de exemplo inseridos."])
                ++ [Line "O banco já possui dados. Seed não será aplicado."]) f4))
    by (by rewrite Hskip).
  apply sat_eq. unfold seed_example. repeat sh_run.
  rewrite get_clients_eq. cbn [fst snd].
  destruct (order_by_id (clientes f4)) as [|r rows] eqn:E.
  - by apply order_by_id_nil in E.
  - cbn [fmap list_fmap]. repeat sh_run. done.
Qed.

End shell_properties.

(** ** The further properties on concrete sessions *)

Lemma ana_file_integrity : referential_integrity ana_file.
Proof.
  change (map_Forall (fun _ o => is_Some (clientes ana_file !! cliente_id o))
            (pedidos ana_file)).
  apply (bool_decide_unpack _). vm_compute. exact I.
Qed.

Lemma int64_small (z : Z) : Z.abs z < 2 ^ 62 -> int64 z.
Proof. unfold int64. lia. Qed.


(** X3 on Ana's file: her client is deleted and her order stays. *)
Lemma delete_client_effect_witness :
  (exists s' : db stored_float,
     delete_client 1 ana_file = (Ok true, s') /\
     get_clients s' = (Ok [], s') /\
     (get_orders s').1 = Ok [(1, 1, "Widget", 9.99%float, "2024-01-01")]) /\
  delete_client (2 ^ 63) ana_file =
    (Raise (OverflowError "Python int too large to convert to SQLite INTEGER"),
     ana_file).
Proof.
  destruct (delete_client_effect ana_file 1) as (Hok & _).
  destruct (delete_client_effect ana_file (2 ^ 63)) as (_ & Hover).
  split.
  - destruct Hok as (s' & rows & Hdel & Hrows & Hlist & Horders & _);
      [left; by apply int64_small|].
    assert (Hr : rows = [(1, "Ana", Some "a@x.com", Some "111")]).
    { assert (H1 : (get_clients ana_file).1 = Ok rows) by (by rewrite Hrows).
      vm_compute in H1. by injection H1. }
    subst rows. exists s'. split; [exact Hdel|]. split; [exact Hlist|].
    rewrite Horders. vm_compute. reflexivity.
  - apply Hover; [unfold int64; lia|by apply int64_small|vm_compute; reflexivity].
Defined.

(** X4 on Ana's file: her order is deleted. *)
Lemma delete_order_effect_witness :
  (exists s' : db stored_float,
     delete_order 1 ana_file = (Ok true, s') /\
     get_orders s' = (Ok [], s')) /\
  delete_order (- 2 ^ 63 - 1) ana_file =
    (Raise (OverflowError "Python int too large to convert to SQLite INTEGER"),
     ana_file).
Proof.
  destruct (delete_order_effect ana_file 1) as (Hok & _).
  destruct (delete_order_effect ana_file (- 2 ^ 63 - 1)) as (_ & Hover).
  split.
  - destruct Hok as (s' & rows & Hdel & Hrows & Hlist & _);
      [left; by apply int64_small|].
    assert (Hr : rows = [(1, 1, "Widget", 9.99%float, "2024-01-01")]).
    { assert (H1 : (get_orders ana_file).1 = Ok rows) by (by rewrite Hrows).
      vm_compute in H1. by injection H1. }
    subst rows. exists s'. split; [exact Hdel|exact Hlist].
  - apply Hover; [unfold int64; lia|by apply int64_small|vm_compute; reflexivity].
Defined.



(** X7 on Ana's file. *)
Lemma get_by_id_agrees_with_listing_witness :
  get_client_by_id 1 ana_file = (Ok (Some (1, "Ana", Some "a@x.com", Some "111")), ana_file) /\
  get_order_by_id 2 ana_file = (Ok None, ana_file) /\
  get_order_by_id (2 ^ 63) ana_file =
    (Raise (OverflowError "Python int too large to convert to SQLite INTEGER"),
     ana_file).
Proof.
  destruct (get_by_id_agrees_with_listing ana_file 1)
    as ((rows & Hrows & Hget & _) & _).
  destruct (get_by_id_agrees_with_listing ana_file 2)
    as (_ & (orders & Horders & Hget2 & _) & _).
  destruct (get_by_id_agrees_with_listing ana_file (2 ^ 63)) as (_ & _ & _ & Hover).
  assert (Hr : rows = [(1, "Ana", Some "a@x.com", Some "111")]).
  { assert (H1 : (get_clients ana_file).1 = Ok rows) by (by rewrite Hrows).
    vm_compute in H1. by injection H1. }
  assert (Ho : orders = [(1, 1, "Widget", 9.99%float, "2024-01-01")]).
  { assert (H1 : (get_orders ana_file).1 = Ok orders) by (by rewrite Horders).
    vm_compute in H1. by injection H1. }
  subst rows orders. split; [|split].
  - apply Hget. left. by apply int64_small.
  - apply Hget2. left. by apply int64_small.
  - apply Hover; [unfold int64; lia|by apply int64_small|vm_compute; reflexivity].
Defined.

(** X9 on Ana's file. *)
Lemma list_orders_with_clients_total_witness :
  exists (orders : list pedido_row) (joined : list joined_row),
    get_orders ana_file = (Ok orders, ana_file) /\
    list_orders_with_clients ana_file = (Ok joined, ana_file) /\
    joined_pedido_id <$> joined = pedido_row_id <$> orders.
Proof. apply list_orders_with_clients_total, ana_file_integrity. Defined.


(** X11 on Ana's session, from a new file. *)
Lemma run_referential_integrity_witness :
  referential_integrity (run ana_session new_file).2.
Proof.
  apply run_referential_integrity.
  - apply new_file_integrity.
  - split; [exact I|]. split; [|exact I]. vm_compute. by eexists.
Defined.

(** X12 on three lines, the first of which is no number. *)
Lemma input_int_first_valid_witness :
  input_int example_builtins "ID: " (World ["abc"; " 42 "; "next"] [] ana_file) =
    (Returns 42,
     World ["next"]
       [Prompt "ID: "; Line "Entrada inválida. Digite um número inteiro.";
        Prompt "ID: "]
       ana_file).
Proof.
  apply (proj1 (input_int_first_valid example_builtins "ID: "
                  (World ["abc"; " 42 "; "next"] [] ana_file))
           ["abc"] " 42 " ["next"] 42).
  - reflexivity.
  - repeat constructor.
  - vm_compute. reflexivity.
Defined.

(** X13 on three lines, the first of which is no number. *)
Lemma input_float_first_valid_witness :
  input_float example_builtins "Valor: " (World ["abc"; "49.90"; "next"] [] ana_file) =
    (Returns 49.90%float,
     World ["next"]
       [Prompt "Valor: "; Line "Entrada inválida. Digite um número (ex: 12.50).";
        Prompt "Valor: "]
       ana_file).
Proof.
  apply (proj1 (input_float_first_valid example_builtins "Valor: "
                  (World ["abc"; "49.90"; "next"] [] ana_file))
           ["abc"] "49.90" ["next"] 49.90%float).
  - reflexivity.
  - repeat constructor.
  - vm_compute. reflexivity.
Defined.

(** X14 on a line that is no date and a blank line. *)
Lemma input_date_valid_witness :
  input_date example_builtins "Data: " (World ["yesterday"; "  "; "next"] [] ana_file) =
    (Returns "2024-01-01",
     World ["next"]
       [Prompt "Data: ";
        Line "Formato inválido. Use AAAA-MM-DD ou deixe em branco para usar a data de hoje.";
        Prompt "Data: "]
       ana_file).
Proof.
  apply (proj1 (input_date_valid example_builtins "Data: "
                  (World ["yesterday"; "  "; "next"] [] ana_file))
           ["yesterday"] "  " ["next"]).
  - reflexivity.
  - repeat constructor; by vm_compute.
  - left. vm_compute. reflexivity.
Defined.

(** X16 on a session that seeds the file, adds an order and leaves. *)
Lemma main_loop_referential_integrity_witness :
  referential_integrity
    (file (main_loop (real := stored_float) example_builtins
             ["10"; "6"; "1"; "Mouse"; "49.90"; EmptyString; "0"] None).2).
Proof.
  apply main_loop_referential_integrity.
  - apply new_file_integrity.
  - repeat (constructor; [by vm_compute|]). constructor.
Defined.

(** X17 on Ana's file, for the client id 5. *)
Lemma menu_order_for_unknown_client_witness :
  (menu_round example_builtins (World ["6"; "5"; "next"] [] ana_file)).1 = Returns None /\
  file (menu_round example_builtins (World ["6"; "5"; "next"] [] ana_file)).2 = ana_file.
Proof.
  rewrite (menu_order_for_unknown_client example_builtins
             (World ["6"; "5"; "next"] [] ana_file) "6" "5" ["next"] 5);
    [done|reflexivity|vm_compute; reflexivity|vm_compute; reflexivity
    |by apply int64_small|vm_compute; reflexivity].
Defined.

(** X18 on Ana's file, with the new value [abc]. *)
Lemma menu_update_order_bad_value_witness :
  (menu_round example_builtins
     (World ["7"; "1"; "1"; EmptyString; "abc"; "next"] [] ana_file)).1 = Raises ValueError.
Proof.
  apply (menu_update_order_bad_value example_builtins
           (World ["7"; "1"; "1"; EmptyString; "abc"; "next"] [] ana_file)
           "7" "1" "1" EmptyString "abc" ["next"] 1 1).
  - reflexivity.
  - vm_compute. reflexivity.
  - vm_compute. reflexivity.
  - vm_compute. by eexists.
  - vm_compute. reflexivity.
  - vm_compute. by eexists.
  - by vm_compute.
  - vm_compute. reflexivity.
Defined.

(** X19 on Ana's file. *)
Lemma menu_add_client_blank_name_witness :
  (menu_round example_builtins
     (World ["2"; "  "; "b@x.com"; "222"; "next"] [] ana_file)).1 = Returns None /\
  file (menu_round example_builtins
          (World ["2"; "  "; "b@x.com"; "222"; "next"] [] ana_file)).2 = ana_file.
Proof.
  rewrite (menu_add_client_blank_name example_builtins
             (World ["2"; "  "; "b@x.com"; "222"; "next"] [] ana_file)
             "2" "  " "b@x.com" "222" ["next"]);
    [done|reflexivity|vm_compute; reflexivity..].
Defined.

(** X20 on Ana's file. *)
Lemma menu_update_client_blank_witness :
  exists out : list written,
    menu_round example_builtins (World ["3"; "1"; EmptyString; EmptyString; EmptyString; "next"] [] ana_file) =
      (Returns None, World ["next"] (out ++ [Line "Atualizado."]) ana_file).
Proof.
  apply (menu_update_client_blank example_builtins
           (World ["3"; "1"; EmptyString; EmptyString; EmptyString; "next"] [] ana_file)
           "3" "1" EmptyString EmptyString EmptyString ["next"] 1).
  - reflexivity.
  - vm_compute. reflexivity.
  - vm_compute. reflexivity.
  - vm_compute. by eexists.
  - vm_compute. reflexivity.
  - vm_compute. reflexivity.
  - vm_compute. reflexivity.
Defined.


(** X22 on Ana's file. *)
Lemma seed_example_skips_witness :
  seed_example example_builtins (World ["next"] [] ana_file) =
    (Returns (),
     World ["next"] [Line "O banco já possui dados. Seed não será aplicado."]
       ana_file).
Proof.
  apply (seed_example_skips example_builtins (World ["next"] [] ana_file)).
  intros Hempty. apply (f_equal (fun m => m !! 1)) in Hempty.
  vm_compute in Hempty. discriminate.
Defined.

(** X23 on a new file. *)
Lemma seed_example_seeds_witness :
  exists (c1 c2 o1 o2 : Z) (w' : world stored_float),
    seed_example example_builtins (World ["next"] [] new_file) = (Returns (), w') /\
    get_clients (file w') =
      (Ok [(c1, "Ana Silva", Some "ana@example.com", Some "11999990000");
           (c2, "Bruno Costa", Some "bruno@example.com", Some "21988880000")],
       file w') /\
    get_orders (file w') =
      (Ok [(o1, c1, "Teclado mecânico", 299.90%float, "2024-01-01");
           (o2, c2, monitor_24, 799.50%float, "2024-01-01")],
       file w').
Proof.
  destruct (seed_example_seeds example_builtins (World ["next"] [] new_file))
    as (c1 & c2 & o1 & o2 & w' & orders & Hrun & _ & _ & Hclients & Horders & Hseeded & _);
    [reflexivity|].
  exists c1, c2, o1, o2, w'. split; [exact Hrun|]. split; [exact Hclients|].
  assert (Hnil : orders = []).
  { assert (H1 : (get_orders new_file).1 = Ok orders)
      by (cbn [file] in Horders; by rewrite Horders).
    vm_compute in H1. by injection H1. }
  subst orders. exact Hseeded.
Defined.

(** The menu on a value that is a NaN, and on an id outside the 64-bit
    range: the exception of the data-access layer ends [main_loop]. *)
Example main_loop_nan_value :
  (main_loop (real := stored_float) example_builtins
     ["10"; "6"; "1"; "Mouse"; "nan"; EmptyString; "0"] None).1 =
    Raises (Propagated (IntegrityError "NOT NULL constraint failed: pedidos.valor")).
Proof. vm_compute. reflexivity. Qed.

Example main_loop_large_id :
  (main_loop (real := stored_float) example_builtins
     ["4"; "9223372036854775808"; "0"] None).1 =
    Raises (Propagated
              (OverflowError "Python int too large to convert to SQLite INTEGER")).
Proof. vm_compute. reflexivity. Qed.
